(** * Export pipeline of the Sanity "Export Data" component

    A shallow embedding of the logic of [ExportData.tsx]: the query builder
    ([buildExportQuery]), the recursive reference expansion
    ([buildReferenceExpansion]), the CSV converter ([convertToCSV]) and the
    export run ([handleExport]), followed by the properties proved of them.

    JavaScript strings are sequences of UTF-16 code units; they are modelled
    as lists of code units, so that [trim], [split], [join], [includes] and
    [replace] are the list functions written below. *)

From Stdlib Require Import String Ascii DecimalString.
From Stdlib Require Import List ZArith NArith Lia Bool PrimFloat.
From Equations Require Import Equations.
Import ListNotations.

Set Warnings "-register-all".

(* ===================================================================== *)
(** ** JavaScript strings *)
(* ===================================================================== *)

Definition jsstring := list N.

(** An ASCII literal of the source, as code units. *)
Definition lit (s : string) : jsstring :=
  map N_of_ascii (list_ascii_of_string s).

Definition dquote : jsstring := [34%N].   (* the character U+0022 *)
Definition nl : jsstring := [10%N].       (* a line feed, as in a template *)
Definition comma : N := 44%N.

Definition code_eqb (a b : N) : bool := N.eqb a b.

Fixpoint str_eqb (a b : jsstring) : bool :=
  match a, b with
  | [], [] => true
  | x :: a', y :: b' => code_eqb x y && str_eqb a' b'
  | _, _ => false
  end.

(** Truthiness of a string: every string but the empty one. *)
Definition truthy (s : jsstring) : bool :=
  match s with [] => false | _ :: _ => true end.

(** WhiteSpace and LineTerminator code units, as [String.prototype.trim]
    strips them. *)
Definition isWhiteSpace (c : N) : bool :=
  ((9 <=? c) && (c <=? 13) || (c =? 32) || (c =? 160) || (c =? 5760)
   || (8192 <=? c) && (c <=? 8202) || (c =? 8232) || (c =? 8233)
   || (c =? 8239) || (c =? 8287) || (c =? 12288) || (c =? 65279))%N.

Fixpoint trimStart (s : jsstring) : jsstring :=
  match s with
  | [] => []
  | c :: s' => if isWhiteSpace c then trimStart s' else s
  end.

Definition trimEnd (s : jsstring) : jsstring := rev (trimStart (rev s)).

Definition trim (s : jsstring) : jsstring := trimEnd (trimStart s).

(** [s.split(sep)] for a one-character separator: never the empty array. *)
Fixpoint split (sep : N) (s : jsstring) : list jsstring :=
  match s with
  | [] => [[]]
  | c :: s' =>
      if code_eqb c sep then [] :: split sep s'
      else match split sep s' with
           | h :: t => (c :: h) :: t
           | [] => [[c]]
           end
  end.

(** [arr.join(sep)] on an array of strings. *)
Fixpoint join (sep : jsstring) (arr : list jsstring) : jsstring :=
  match arr with
  | [] => []
  | [x] => x
  | x :: rest => x ++ sep ++ join sep rest
  end.

(** [s.includes(c)] for a one-character needle. *)
Definition includes (c : N) (s : jsstring) : bool := existsb (code_eqb c) s.

(** [s.replace] of every double-quote character by two of them. *)
Definition double_quotes (s : jsstring) : jsstring :=
  flat_map (fun c => if code_eqb c 34 then [34%N; 34%N] else [c]) s.

(** Decimal rendering of an integer-valued number, as a template literal
    prints it.  JavaScript prints exactly these digits for the safe integers
    (a number beyond them prints the shortest digits of its double, in
    exponent form from 10^21 on): statements that depend on the digits of a
    prop say [safe_integer].  The length of an array is always safe. *)
Definition Number_toString (n : Z) : jsstring :=
  lit (NilEmpty.string_of_int (Z.to_int n)).

(** [Number.isSafeInteger(n)] for an integer [n]. *)
Definition safe_integer (n : Z) : bool := (Z.abs n <? 2 ^ 53)%Z.

(** Number of positions of [s] at which [pat] starts. *)
Fixpoint starts_with (pat s : jsstring) : bool :=
  match pat, s with
  | [], _ => true
  | _ :: _, [] => false
  | p :: pat', c :: s' => code_eqb p c && starts_with pat' s'
  end.

Fixpoint occurrences (pat s : jsstring) : nat :=
  match s with
  | [] => if starts_with pat [] then 1 else 0
  | _ :: s' => (if starts_with pat s then 1 else 0) + occurrences pat s'
  end.

(** [pat] occurs somewhere in [s]. *)
Definition contains (pat s : jsstring) : bool := Nat.ltb 0 (occurrences pat s).

(* ===================================================================== *)
(** ** The export request: the component state a run reads *)
(* ===================================================================== *)

Inductive ExportFormat := json_format | csv_format.

Record ExportRequest := {
  selectedTypes : list jsstring;
  dateFilter : jsstring;
  fieldFilter : jsstring;
  useCustomQuery : bool;
  customQuery : jsstring;
  maxDocuments : Z;
  includeRefs : bool;
  refDepth : Z;
  exportFormat : ExportFormat;
  filename : jsstring
}.

(* ===================================================================== *)
(** ** buildReferenceExpansion *)
(* ===================================================================== *)

(** The template literal [expansion] of [buildReferenceExpansion]. *)
Definition expansion : jsstring :=
  nl ++ lit "      " ++ dquote ++ lit "references" ++ dquote
     ++ lit ": *[references(^._id)] {"
  ++ nl ++ lit "        _id,"
  ++ nl ++ lit "        _type,"
  ++ nl ++ lit "        title,"
  ++ nl ++ lit "        name,"
  ++ nl ++ lit "        slug"
  ++ nl ++ lit "      }".

Equations? buildReferenceExpansion (depth : Z) : jsstring
  by wf (Z.to_nat depth) lt :=
  buildReferenceExpansion depth with Z_le_gt_dec depth 0 := {
    | left _ := [];
    | right _ with Z_gt_le_dec depth 1 := {
        | left _ := expansion ++ lit "," ++ buildReferenceExpansion (depth - 1);
        | right _ := expansion } }.
Proof. lia. Qed.

(* ===================================================================== *)
(** ** buildExportQuery *)
(* ===================================================================== *)

(** The condition pushed for the document type filter. *)
Definition typeCondition (types : list jsstring) : jsstring :=
  lit "_type in ["
  ++ join (lit ", ") (map (fun t => dquote ++ t ++ dquote) types)
  ++ lit "]".

(** The condition pushed for the date filter. *)
Definition dateCondition (d : jsstring) : jsstring :=
  lit "dateTime(_createdAt) >= dateTime(" ++ dquote ++ d ++ dquote ++ lit ")".

(** [fieldFilter.split(',').map(f => f.trim()).filter(Boolean)]. *)
Definition fieldNames (f : jsstring) : list jsstring :=
  filter truthy (map trim (split comma f)).

(** The condition pushed for the field filter. *)
Definition fieldCondition (fields : list jsstring) : jsstring :=
  lit "("
  ++ join (lit " || ") (map (fun field => lit "defined(" ++ field ++ lit ")") fields)
  ++ lit ")".

(** The projection appended when reference expansion is requested. *)
Definition projection (depth : Z) : jsstring :=
  lit " {" ++ nl ++ lit "        ...," ++ nl ++ lit "        "
  ++ buildReferenceExpansion depth ++ nl ++ lit "      }".

Definition buildExportQuery (r : ExportRequest) : jsstring :=
  if useCustomQuery r && truthy (trim (customQuery r)) then customQuery r
  else
    let query := lit "*[" in
    let conditions : list jsstring := [] in
    let conditions :=
      if (0 <? length (selectedTypes r))%nat
      then conditions ++ [typeCondition (selectedTypes r)]
      else conditions in
    let conditions :=
      if truthy (trim (dateFilter r))
      then conditions ++ [dateCondition (dateFilter r)]
      else conditions in
    let conditions :=
      if truthy (trim (fieldFilter r))
      then
        let fields := fieldNames (fieldFilter r) in
        if (0 <? length fields)%nat
        then conditions ++ [fieldCondition fields]
        else conditions
      else conditions in
    let query :=
      if (0 <? length conditions)%nat
      then query ++ join (lit " && ") conditions
      else query in
    let query :=
      query ++ lit "][0..." ++ Number_toString (maxDocuments r) ++ lit "]" in
    let query :=
      if includeRefs r && (0 <? refDepth r)%Z
      then query ++ projection (refDepth r)
      else query in
    query.

(* ===================================================================== *)
(** ** Values, documents, exceptions *)
(* ===================================================================== *)

(** The values a fetch returns: JSON trees.  Numbers are IEEE doubles. *)
Inductive json :=
| JNull
| JBool (b : bool)
| JNumber (x : float)
| JString (s : jsstring)
| JArray (items : list json)
| JObject (fields : list (jsstring * json)).

(** A document: its own properties, in the order [Object.keys] lists them.
    The keys of an object are distinct; [get] reads the first binding. *)
Definition DocumentData := list (jsstring * json).

Definition Object_keys (doc : DocumentData) : list jsstring := map fst doc.

(** The own property [key] of [doc]; [None] when [doc] has no such own
    property.  This is [doc[key]] for every [key] of [Object.keys(doc)]. *)
Fixpoint get (doc : DocumentData) (key : jsstring) : option json :=
  match doc with
  | [] => None
  | (k, v) :: rest => if str_eqb k key then Some v else get rest key
  end.

(** The methods every document inherits from [Object.prototype]. *)
Definition Object_prototype_methods : list jsstring :=
  [lit "constructor"; lit "__defineGetter__"; lit "__defineSetter__";
   lit "hasOwnProperty"; lit "__lookupGetter__"; lit "__lookupSetter__";
   lit "isPrototypeOf"; lit "propertyIsEnumerable"; lit "toString";
   lit "valueOf"; lit "toLocaleString"].

(** What [doc[key]] yields for any key: an own property, else what the
    prototype chain gives (a method of [Object.prototype], or
    [Object.prototype] itself under [__proto__]), else [undefined]. *)
Inductive member :=
| own_member (v : json)
| inherited_method (name : jsstring)
| inherited_prototype
| no_member.

(** [doc[key]]. *)
Definition read (doc : DocumentData) (key : jsstring) : member :=
  match get doc key with
  | Some v => own_member v
  | None =>
      if existsb (str_eqb key) Object_prototype_methods then inherited_method key
      else if str_eqb key (lit "__proto__") then inherited_prototype
      else no_member
  end.

Inductive jstype := t_undefined | t_object | t_boolean | t_number | t_string.

Definition typeof (v : option json) : jstype :=
  match v with
  | None => t_undefined
  | Some JNull => t_object
  | Some (JBool _) => t_boolean
  | Some (JNumber _) => t_number
  | Some (JString _) => t_string
  | Some (JArray _) => t_object
  | Some (JObject _) => t_object
  end.

Definition jstype_eqb (a b : jstype) : bool :=
  match a, b with
  | t_undefined, t_undefined | t_object, t_object | t_boolean, t_boolean
  | t_number, t_number | t_string, t_string => true
  | _, _ => false
  end.

Definition is_null (v : option json) : bool :=
  match v with Some JNull => true | _ => false end.

Definition is_undefined (v : option json) : bool :=
  match v with None => true | _ => false end.

(** What a [throw] carries: an [Error] object with its message, or any
    other value. *)
Inductive thrown := ErrorObject (msg : jsstring) | OtherValue.

(** How the evaluation of an expression ends. *)
Inductive completion (A : Type) :=
| Normal (a : A)
| Throw (t : thrown).
Arguments Normal {A} a.
Arguments Throw {A} t.

Definition cbind {A B} (c : completion A) (k : A -> completion B) : completion B :=
  match c with
  | Normal a => k a
  | Throw t => Throw t
  end.

(** [arr.map(f)] when [f] may throw: left to right, up to the first throw. *)
Fixpoint mapM {A B} (f : A -> completion B) (arr : list A) : completion (list B) :=
  match arr with
  | [] => Normal []
  | x :: rest =>
      cbind (f x) (fun y => cbind (mapM f rest) (fun ys => Normal (y :: ys)))
  end.

(** The built-in functions of the platform that the converter calls. *)
Record Platform := {
  (** [JSON.stringify(value)] *)
  JSON_stringify : json -> completion jsstring;
  (** [JSON.stringify(documents, null, 2)] *)
  JSON_stringify_indent : list DocumentData -> completion jsstring;
  (** [String(x)] for a number [x] *)
  Number_prototype_toString : float -> jsstring;
  (** [String(o)] for an array or an object [o] *)
  Object_prototype_toString : json -> jsstring;
  (** [String(f)] for the method [f] of [Object.prototype] of a given name *)
  Function_prototype_toString : jsstring -> jsstring
}.

(** [String(value)]. *)
Definition String_ (P : Platform) (v : json) : jsstring :=
  match v with
  | JNull => lit "null"
  | JBool true => lit "true"
  | JBool false => lit "false"
  | JNumber x => Number_prototype_toString P x
  | JString s => s
  | JArray _ | JObject _ => Object_prototype_toString P v
  end.

(* ===================================================================== *)
(** ** convertToCSV *)
(* ===================================================================== *)

(** [allKeys.add(key)] on a [Set], kept in insertion order. *)
Definition Set_add (key : jsstring) (s : list jsstring) : list jsstring :=
  if existsb (str_eqb key) s then s else s ++ [key].

(** The inner [forEach] over [Object.keys(doc)]. *)
Definition collectKeys (allKeys : list jsstring) (doc : DocumentData) : list jsstring :=
  fold_left
    (fun allKeys key =>
       if negb (jstype_eqb (typeof (get doc key)) t_object) || is_null (get doc key)
       then Set_add key allKeys
       else allKeys)
    (Object_keys doc) allKeys.

(** [Array.from(allKeys)] after the outer [forEach] over the documents. *)
Definition csvHeaders (data : list DocumentData) : list jsstring :=
  fold_left collectKeys data [].

(** The wrapped form of a string holding a comma. *)
Definition quote_wrap (s : jsstring) : jsstring :=
  dquote ++ double_quotes s ++ dquote.

(** The callback of [headers.map]: the cell of a value. *)
Definition csvCell (P : Platform) (value : option json) : completion jsstring :=
  if is_null value || is_undefined value then Normal []
  else match value with
       | None => Normal []
       | Some v =>
           if jstype_eqb (typeof value) t_object then JSON_stringify P v
           else
             match v with
             | JString s =>
                 if includes comma s then Normal (quote_wrap s)
                 else Normal (String_ P v)
             | _ => Normal (String_ P v)
             end
       end.

(** The same callback on whatever [doc[header]] yields.  An inherited
    method is neither [null] nor [undefined], its [typeof] is neither
    ['object'] nor ['string'], so it falls through to [String(value)];
    [Object.prototype] is an object without enumerable property, so it is
    serialized like the empty object. *)
Definition memberCell (P : Platform) (value : member) : completion jsstring :=
  match value with
  | own_member v => csvCell P (Some v)
  | no_member => csvCell P None
  | inherited_method name => Normal (Function_prototype_toString P name)
  | inherited_prototype => JSON_stringify P (JObject [])
  end.

(** The callback of the second [forEach]: the row of a document. *)
Definition csvRow (P : Platform) (headers : list jsstring) (doc : DocumentData)
  : completion jsstring :=
  cbind (mapM (fun header => memberCell P (read doc header)) headers)
        (fun row => Normal (join [comma] row)).

Definition convertToCSV (P : Platform) (data : list DocumentData)
  : completion jsstring :=
  if (length data =? 0)%nat then Normal []
  else
    let headers := csvHeaders data in
    cbind (mapM (csvRow P headers) data)
          (fun rows =>
             let csvRows := [join [comma] headers] ++ rows in
             Normal (join nl csvRows)).

(* ===================================================================== *)
(** ** The export run: state, effects, and the monad of [handleExport] *)
(* ===================================================================== *)

(** The component state a run writes. *)
Record UIState := {
  isExporting : bool;
  exportProgress : Z;
  message : jsstring;
  exportCount : nat
}.

Record ExportResult := {
  exported : nat;
  format : ExportFormat;
  result_filename : jsstring
}.

(** What a run does to the outside, in the order it does it. *)
Inductive effect :=
| console_log (label arg : jsstring)
| console_error (label : jsstring) (error : thrown)
| client_fetch_call (query : jsstring)
| download_call (content filename mimeType : jsstring)
| onComplete_call (results : ExportResult)
| onError_call (error : jsstring).

(** The one callback the run hands to [setTimeout]. *)
Inductive timer_callback := reset_exportProgress.

Record World := {
  ui : UIState;
  effects : list effect;
  timers : list (Z * timer_callback)
}.

(** The capabilities handed to the component, and the platform. *)
Record Env := {
  platform : Platform;
  (** [client.fetch(query)], awaited *)
  client_fetch : jsstring -> completion (list DocumentData);
  (** [new Date().toISOString()] *)
  Date_now_toISOString : completion jsstring;
  (** the DOM calls of [downloadFile] *)
  browser_download : jsstring -> jsstring -> jsstring -> completion unit;
  (** the optional props [onComplete] and [onError] *)
  onComplete : option (ExportResult -> completion unit);
  onError : option (jsstring -> completion unit)
}.

Definition M (A : Type) : Type := World -> completion A * World.

Definition ret {A} (a : A) : M A := fun w => (Normal a, w).

Definition bind {A B} (m : M A) (k : A -> M B) : M B :=
  fun w => match m w with
           | (Normal a, w') => k a w'
           | (Throw t, w') => (Throw t, w')
           end.

Notation "x <- m ;; k" := (bind m (fun x => k))
  (at level 61, m at next level, right associativity).
Notation "m ;; k" := (bind m (fun _ => k))
  (at level 61, right associativity).

Definition lift {A} (c : completion A) : M A := fun w => (c, w).

Definition modify_ui (f : UIState -> UIState) : M unit :=
  fun w => let '(Build_World u es ts) := w in
           (Normal tt, {| ui := f u; effects := es; timers := ts |}).

Definition setIsExporting (b : bool) : M unit :=
  modify_ui (fun u => let '(Build_UIState _ p m n) := u in
                      {| isExporting := b; exportProgress := p;
                         message := m; exportCount := n |}).

Definition setExportProgress (p : Z) : M unit :=
  modify_ui (fun u => let '(Build_UIState b _ m n) := u in
                      {| isExporting := b; exportProgress := p;
                         message := m; exportCount := n |}).

Definition setMessage (m : jsstring) : M unit :=
  modify_ui (fun u => let '(Build_UIState b p _ n) := u in
                      {| isExporting := b; exportProgress := p;
                         message := m; exportCount := n |}).

Definition setExportCount (n : nat) : M unit :=
  modify_ui (fun u => let '(Build_UIState b p m _) := u in
                      {| isExporting := b; exportProgress := p;
                         message := m; exportCount := n |}).

Definition perform (e : effect) : M unit :=
  fun w => let '(Build_World u es ts) := w in
           (Normal tt, {| ui := u; effects := es ++ [e]; timers := ts |}).

Definition setTimeout (cb : timer_callback) (delay : Z) : M unit :=
  fun w => let '(Build_World u es ts) := w in
           (Normal tt, {| ui := u; effects := es; timers := ts ++ [(delay, cb)] |}).

(** [try { body } catch (error) { handler } finally { finalizer }]. *)
Definition try_catch_finally {A} (body : M A) (handler : thrown -> M A)
  (finalizer : M unit) : M A :=
  fun w =>
    let '(r1, w1) := body w in
    let '(r2, w2) := match r1 with
                     | Normal a => (Normal a, w1)
                     | Throw t => handler t w1
                     end in
    match finalizer w2 with
    | (Normal _, w3) => (r2, w3)
    | (Throw t, w3) => (Throw t, w3)
    end.

(** What a pending timer does when it fires. *)
Definition fire (cb : timer_callback) (u : UIState) : UIState :=
  match cb with
  | reset_exportProgress =>
      let '(Build_UIState b _ m n) := u in
      {| isExporting := b; exportProgress := 0; message := m; exportCount := n |}
  end.

(** The state once every pending timer has fired. *)
Definition after_timers (w : World) : World :=
  {| ui := fold_left (fun u t => fire (snd t) u) (timers w) (ui w);
     effects := effects w; timers := [] |}.

(* ===================================================================== *)
(** ** downloadFile and handleExport *)
(* ===================================================================== *)

Definition downloadFile (env : Env) (content filename mimeType : jsstring) : M unit :=
  perform (download_call content filename mimeType) ;;
  lift (browser_download env content filename mimeType).

(** [timestamp]: the text of the ISO instant before its first [T]. *)
Definition timestamp_of (iso : jsstring) : jsstring :=
  hd (lit "undefined") (split 84 iso).

(** [typeString]. *)
Definition typeString (r : ExportRequest) : jsstring :=
  if (0 <? length (selectedTypes r))%nat
  then join (lit "-") (selectedTypes r)
  else lit "custom".

(** [generatedFilename]. *)
Definition generatedFilename (r : ExportRequest) (timestamp : jsstring) : jsstring :=
  if truthy (trim (filename r)) then trim (filename r)
  else lit "sanity-export-" ++ typeString r ++ lit "-" ++ timestamp.

Definition format_name (f : ExportFormat) : jsstring :=
  match f with json_format => lit "json" | csv_format => lit "csv" end.

(** The three variables the [if (exportFormat === 'csv')] block assigns. *)
Definition convert (env : Env) (r : ExportRequest) (documents : list DocumentData)
  (generated : jsstring) : M (jsstring * jsstring * jsstring) :=
  match exportFormat r with
  | csv_format =>
      content <- lift (convertToCSV (platform env) documents) ;;
      ret (content, lit "text/csv", generated ++ lit ".csv")
  | json_format =>
      content <- lift (JSON_stringify_indent (platform env) documents) ;;
      ret (content, lit "application/json", generated ++ lit ".json")
  end.

(** [onComplete?.(results)] and [onError?.(message)]. *)
Definition call_onComplete (env : Env) (results : ExportResult) : M unit :=
  match onComplete env with
  | None => ret tt
  | Some f => perform (onComplete_call results) ;; lift (f results)
  end.

Definition call_onError (env : Env) (msg : jsstring) : M unit :=
  match onError env with
  | None => ret tt
  | Some f => perform (onError_call msg) ;; lift (f msg)
  end.

Definition validation_message : jsstring :=
  lit "Please select at least one document type or use a custom query".

Definition no_documents_message : jsstring :=
  lit "No documents found matching the criteria".

(** [error instanceof Error ? error.message : 'Export failed']. *)
Definition errorMessage (error : thrown) : jsstring :=
  match error with
  | ErrorObject msg => msg
  | OtherValue => lit "Export failed"
  end.

(** The [try] block.  The run is modelled on its own: nothing else happens
    while the fetch is awaited.  A reset timer still pending from an earlier
    run can fire during that await in the browser; statements about the
    progress left by a failed fetch therefore start from a world without
    pending timers. *)
Definition export_body (env : Env) (r : ExportRequest) : M unit :=
  let query := buildExportQuery r in
  perform (console_log (lit "Executing export query:") query) ;;
  setMessage (lit "Fetching documents...") ;;
  setExportProgress 25 ;;
  documents <- (perform (client_fetch_call query) ;; lift (client_fetch env query)) ;;
  setExportCount (length documents) ;;
  setExportProgress 50 ;;
  if (length documents =? 0)%nat then
    setMessage no_documents_message
  else
    let count := Number_toString (Z.of_nat (length documents)) in
    setMessage (lit "Processing " ++ count ++ lit " documents...") ;;
    setExportProgress 75 ;;
    iso <- lift (Date_now_toISOString env) ;;
    let timestamp := timestamp_of iso in
    let generated := generatedFilename r timestamp in
    conv <- convert env r documents generated ;;
    let '(content, mimeType, finalFilename) := conv in
    setMessage (lit "Downloading file...") ;;
    setExportProgress 90 ;;
    downloadFile env content finalFilename mimeType ;;
    setExportProgress 100 ;;
    setMessage (lit "Successfully exported " ++ count ++ lit " documents as "
                ++ finalFilename) ;;
    call_onComplete env {| exported := length documents;
                           format := exportFormat r;
                           result_filename := finalFilename |}.

(** The [catch] block. *)
Definition export_catch (env : Env) (error : thrown) : M unit :=
  perform (console_error (lit "Export error:") error) ;;
  let msg := errorMessage error in
  setMessage (lit "Export error: " ++ msg) ;;
  call_onError env msg.

(** The [finally] block. *)
Definition export_finally : M unit :=
  setIsExporting false ;;
  setTimeout reset_exportProgress 2000.

Definition handleExport (env : Env) (r : ExportRequest) : M unit :=
  if (length (selectedTypes r) =? 0)%nat && negb (useCustomQuery r) then
    setMessage validation_message
  else
    setIsExporting true ;;
    setMessage (lit "Preparing export...") ;;
    setExportProgress 0 ;;
    try_catch_finally (export_body env r) (export_catch env) export_finally.

(* ===================================================================== *)
(** ** Sample inputs *)
(* ===================================================================== *)

(** A request as the form leaves it when nothing but the types is set. *)
Definition request_of_types (types : list jsstring) : ExportRequest :=
  {| selectedTypes := types; dateFilter := []; fieldFilter := [];
     useCustomQuery := false; customQuery := [];
     maxDocuments := 1000; includeRefs := false; refDepth := 2;
     exportFormat := json_format; filename := [] |}.

(** The same request with the custom-query box ticked and filled in. *)
Definition request_of_custom (types : list jsstring) (q : jsstring) : ExportRequest :=
  {| selectedTypes := types; dateFilter := []; fieldFilter := [];
     useCustomQuery := true; customQuery := q;
     maxDocuments := 1000; includeRefs := false; refDepth := 2;
     exportFormat := json_format; filename := [] |}.

Definition sample_custom_query : jsstring := lit "*[_type == 'post']".

(** The range clause the builder writes for a request. *)
Definition range_clause (r : ExportRequest) : jsstring :=
  lit "[0..." ++ Number_toString (maxDocuments r) ++ lit "]".

(** The custom-query override is active. *)
Definition override_active (r : ExportRequest) : bool :=
  useCustomQuery r && truthy (trim (customQuery r)).

(** The conditions of a request, as the specification lists them: type
    membership, then creation date, then field presence, each only when its
    filter is set. *)
Definition conditions_in_order (r : ExportRequest) : list jsstring :=
  (if (0 <? length (selectedTypes r))%nat
   then [typeCondition (selectedTypes r)] else [])
  ++ (if truthy (trim (dateFilter r)) then [dateCondition (dateFilter r)] else [])
  ++ (if (0 <? length (fieldNames (fieldFilter r)))%nat
      then [fieldCondition (fieldNames (fieldFilter r))] else []).

(** The marker of a relation fragment: the key of the relation block with
    the sub-query it introduces. *)
Definition relation_marker : jsstring :=
  dquote ++ lit "references" ++ dquote ++ lit ": *[references(^._id)]".

(** Scenario 2: two types and a date filter. *)
Definition request_scenario2 : ExportRequest :=
  {| selectedTypes := [lit "post"; lit "page"]; dateFilter := lit "2023-01-01";
     fieldFilter := []; useCustomQuery := false; customQuery := [];
     maxDocuments := 1000; includeRefs := false; refDepth := 2;
     exportFormat := json_format; filename := [] |}.

(** Scenario 3: two posts, the second with an array of tags. *)
Definition doc_a : DocumentData :=
  [(lit "_id", JString (lit "a")); (lit "_type", JString (lit "post"));
   (lit "title", JString (lit "Hi"))].

Definition doc_b : DocumentData :=
  [(lit "_id", JString (lit "b")); (lit "_type", JString (lit "post"));
   (lit "tags", JArray [JString (lit "x")])].

(** A platform whose number and object renderings are fixed texts and whose
    [JSON.stringify] never throws; enough to run the converter on documents
    of strings. *)
Definition sample_platform : Platform :=
  {| JSON_stringify := fun _ => Normal (lit "{}");
     JSON_stringify_indent := fun _ => Normal (lit "[]");
     Number_prototype_toString := fun _ => lit "0";
     Object_prototype_toString := fun _ => lit "[object Object]";
     Function_prototype_toString := fun _ => lit "function () { [native code] }" |}.

(** A value that the header computation counts: anything but an array or an
    object ([null] and [undefined] included). *)
Definition scalar_or_null (v : option json) : bool :=
  match v with
  | Some (JArray _) | Some (JObject _) => false
  | _ => true
  end.

(** The keys of a document whose value counts, in the document's order. *)
Definition includable_keys (doc : DocumentData) : list jsstring :=
  filter (fun key => scalar_or_null (get doc key)) (Object_keys doc).

(** The names of a sequence in the order of their first occurrence. *)
Fixpoint first_seen (l : list jsstring) : list jsstring :=
  match l with
  | [] => []
  | x :: l' => x :: filter (fun y => negb (str_eqb x y)) (first_seen l')
  end.







(** The conditions of a request in the specification's own words. *)
Definition quoted (s : jsstring) : jsstring := 34%N :: s ++ [34%N].

Definition type_membership (types : list jsstring) : jsstring :=
  lit "_type in [" ++ join (lit ", ") (map quoted types) ++ lit "]".

Definition created_since (date : jsstring) : jsstring :=
  lit "dateTime(_createdAt) >= dateTime(" ++ quoted date ++ lit ")".

Definition is_defined (field : jsstring) : jsstring :=
  lit "defined(" ++ field ++ lit ")".

Definition any_of (predicates : list jsstring) : jsstring :=
  lit "(" ++ join (lit " || ") predicates ++ lit ")".

Definition blank (s : jsstring) : bool := forallb isWhiteSpace s.

(** The required fields: the comma-separated pieces that are not blank,
    each without its surrounding white space. *)
Definition required_fields (filter_text : jsstring) : list jsstring :=
  map trim (filter (fun piece => negb (blank piece)) (split 44 filter_text)).

Definition spec_conditions (r : ExportRequest) : list jsstring :=
  match selectedTypes r with
  | [] => []
  | _ :: _ => [type_membership (selectedTypes r)]
  end
  ++ (if blank (dateFilter r) then [] else [created_since (dateFilter r)])
  ++ match required_fields (fieldFilter r) with
     | [] => []
     | fields => [any_of (map is_defined fields)]
     end.

(** Scenario 2 with a field filter added. *)
Definition request_with_fields : ExportRequest :=
  {| selectedTypes := [lit "post"; lit "page"]; dateFilter := lit "2023-01-01";
     fieldFilter := lit " title, ,slug "; useCustomQuery := false; customQuery := [];
     maxDocuments := 1000; includeRefs := false; refDepth := 2;
     exportFormat := json_format; filename := [] |}.

(** The descriptive text of a failure: the message of an [Error], and
    [Export failed] for anything else that was thrown. *)
Definition failure_text (t : thrown) : jsstring :=
  match t with
  | ErrorObject msg => msg
  | OtherValue => lit "Export failed"
  end.

(** The entry test of [handleExport] lets the run start. *)
Definition passes_validation (r : ExportRequest) : bool :=
  negb ((length (selectedTypes r) =? 0)%nat && negb (useCustomQuery r)).

(** The calls of the two callbacks among the effects of a run. *)
Definition completion_calls (w : World) : list ExportResult :=
  flat_map (fun e => match e with onComplete_call res => [res] | _ => [] end)
           (effects w).

Definition error_calls (w : World) : list jsstring :=
  flat_map (fun e => match e with onError_call msg => [msg] | _ => [] end)
           (effects w).

(** The content the conversion step computes for a format. *)
Definition content_of (env : Env) (r : ExportRequest) (documents : list DocumentData)
  : completion jsstring :=
  match exportFormat r with
  | csv_format => convertToCSV (platform env) documents
  | json_format => JSON_stringify_indent (platform env) documents
  end.

Definition mime_of (f : ExportFormat) : jsstring :=
  match f with json_format => lit "application/json" | csv_format => lit "text/csv" end.

(** The output name as the code resolves it: the trimmed name of the form
    when that is not blank, else the generated one whose type segment is the
    selected types joined by dashes, or the placeholder when none is
    selected; then a dot and the format. *)
Definition resolved_name (r : ExportRequest) (iso : jsstring) : jsstring :=
  (if truthy (trim (filename r)) then trim (filename r)
   else lit "sanity-export-"
        ++ (if (0 <? length (selectedTypes r))%nat
            then join (lit "-") (selectedTypes r) else lit "custom")
        ++ lit "-" ++ timestamp_of iso)
  ++ lit "." ++ format_name (exportFormat r).

(** The state of a component that has not run yet. *)
Definition idle_world : World :=
  {| ui := {| isExporting := false; exportProgress := 0; message := [];
              exportCount := 0 |};
     effects := []; timers := [] |}.

Definition sample_iso : jsstring := lit "2024-05-06T07:08:09.000Z".

(** An environment in which nothing throws and the fetch returns [docs]. *)
Definition env_returning (docs : list DocumentData) : Env :=
  {| platform := sample_platform;
     client_fetch := fun _ => Normal docs;
     Date_now_toISOString := Normal sample_iso;
     browser_download := fun _ _ _ => Normal tt;
     onComplete := Some (fun _ => Normal tt);
     onError := Some (fun _ => Normal tt) |}.

(** An environment whose fetch throws an [Error]. *)
Definition env_fetch_failing : Env :=
  {| platform := sample_platform;
     client_fetch := fun _ => Throw (ErrorObject (lit "Request failed"));
     Date_now_toISOString := Normal sample_iso;
     browser_download := fun _ _ _ => Normal tt;
     onComplete := Some (fun _ => Normal tt);
     onError := Some (fun _ => Normal tt) |}.

(** A step of the [try] block of a run of [r] in [env] throws [t]: the
    fetch, the name resolution, the conversion or the emission, each reached
    only when the steps before it returned. *)
Inductive step_failure (env : Env) (r : ExportRequest) (t : thrown) : Prop :=
| fetch_fails :
    client_fetch env (buildExportQuery r) = Throw t ->
    step_failure env r t
| name_resolution_fails (docs : list DocumentData) :
    client_fetch env (buildExportQuery r) = Normal docs -> docs <> [] ->
    Date_now_toISOString env = Throw t ->
    step_failure env r t
| conversion_fails (docs : list DocumentData) (iso : jsstring) :
    client_fetch env (buildExportQuery r) = Normal docs -> docs <> [] ->
    Date_now_toISOString env = Normal iso ->
    content_of env r docs = Throw t ->
    step_failure env r t
| emission_fails (docs : list DocumentData) (iso content : jsstring) :
    client_fetch env (buildExportQuery r) = Normal docs -> docs <> [] ->
    Date_now_toISOString env = Normal iso ->
    content_of env r docs = Normal content ->
    browser_download env content (resolved_name r iso) (mime_of (exportFormat r))
    = Throw t ->
    step_failure env r t.

(** The completion callback, when there is one, returns. *)
Definition onComplete_returns (env : Env) : Prop :=
  forall f res, onComplete env = Some f -> f res = Normal tt.

(** The error callback, when there is one, returns. *)
Definition onError_returns (env : Env) : Prop :=
  forall f msg, onError env = Some f -> f msg = Normal tt.

(* ===================================================================== *)
(** ** The type selection and what the component renders *)
(* ===================================================================== *)

(** The updater [toggleTypeSelection] passes to [setSelectedTypes]. *)
Definition toggleTypeSelection (type : jsstring) (prev : list jsstring)
  : list jsstring :=
  if existsb (str_eqb type) prev
  then filter (fun t => negb (str_eqb t type)) prev
  else prev ++ [type].

(** [selectAllTypes] and [clearAllTypes]: the new selection. *)
Definition selectAllTypes (availableTypes : list jsstring) : list jsstring :=
  availableTypes.

Definition clearAllTypes : list jsstring := [].

Module TypeSelection.

(** The two pieces of state [loadAvailableTypes] writes. *)
Record State := {
  availableTypes : list jsstring;
  selectedTypes : list jsstring
}.

(** What [loadAvailableTypes] reads: the prop [documentTypes], the client
    (asked for the distinct type names) and the optional prop [onError]. *)
Record Props := {
  documentTypes : list jsstring;
  client_fetch : jsstring -> completion (list jsstring);
  onError : option (jsstring -> completion unit)
}.

Definition types_query : jsstring := lit "array::unique(*[]._type)".

Definition load_failure_message : jsstring := lit "Failed to load document types".

Definition loadAvailableTypes (props : Props) (w : State * list effect)
  : completion unit * (State * list effect) :=
  let '(st, es) := w in
  let '(fetched, es1) :=
    if (0 <? length (documentTypes props))%nat
    then (Normal (documentTypes props), es)
    else (client_fetch props types_query, es ++ [client_fetch_call types_query]) in
  match fetched with
  | Normal types =>
      let st1 := {| availableTypes := filter truthy types;
                    selectedTypes := selectedTypes st |} in
      let st2 := if (0 <? length types)%nat
                 then {| availableTypes := availableTypes st1;
                         selectedTypes := [hd [] types] |}
                 else st1 in
      (Normal tt, (st2, es1))
  | Throw error =>
      let es2 := es1 ++ [console_error (lit "Error loading document types:") error] in
      match onError props with
      | None => (Normal tt, (st, es2))
      | Some f => (f load_failure_message,
                   (st, es2 ++ [onError_call load_failure_message]))
      end
  end.

End TypeSelection.

(** The [disabled] attribute of the export button. *)
Definition exportButtonDisabled (r : ExportRequest) : bool :=
  (length (selectedTypes r) =? 0)%nat && negb (useCustomQuery r).

(** The progress box is rendered. *)
Definition progressVisible (u : UIState) : bool :=
  isExporting u && (0 <? exportProgress u)%Z.

(** The status card is rendered. *)
Definition statusCardVisible (u : UIState) : bool :=
  truthy (message u) && negb (isExporting u).

Inductive tone := critical | positive.

(** The tone of the status card: decided by the text of the message. *)
Definition statusTone (msg : jsstring) : tone :=
  if contains (lit "error") msg then critical else positive.

(** The badge with the document count is rendered inside the status card. *)
Definition badgeVisible (u : UIState) : bool := (0 <? exportCount u)%nat.

(** The fetches and the downloads among the effects of a run. *)
Definition fetch_calls (w : World) : list jsstring :=
  flat_map (fun e => match e with client_fetch_call q => [q] | _ => [] end)
           (effects w).

Definition download_calls (w : World) : list (jsstring * jsstring * jsstring) :=
  flat_map (fun e => match e with
                     | download_call c f m => [(c, f, m)]
                     | _ => []
                     end)
           (effects w).

(** The message of a run that went through. *)
Definition success_message (n : nat) (finalFilename : jsstring) : jsstring :=
  lit "Successfully exported " ++ Number_toString (Z.of_nat n)
  ++ lit " documents as " ++ finalFilename.

(** A record all of whose fields hold an array or an object. *)
Definition doc_nested : DocumentData :=
  [(lit "slug", JObject [(lit "current", JString (lit "x"))]);
   (lit "tags", JArray [JString (lit "y")])].

(** An environment in which every step returns but the completion callback
    throws. *)
Definition env_completion_throwing : Env :=
  {| platform := sample_platform;
     client_fetch := fun _ => Normal [doc_a];
     Date_now_toISOString := Normal sample_iso;
     browser_download := fun _ _ _ => Normal tt;
     onComplete := Some (fun _ => Throw (ErrorObject (lit "callback failed")));
     onError := Some (fun _ => Normal tt) |}.

(** Props with a fixed list of types, and props whose client throws. *)
Definition props_of_types (types : list jsstring) : TypeSelection.Props :=
  {| TypeSelection.documentTypes := types;
     TypeSelection.client_fetch := fun _ => Normal [];
     TypeSelection.onError := Some (fun _ => Normal tt) |}.

Definition props_fetching (res : completion (list jsstring)) : TypeSelection.Props :=
  {| TypeSelection.documentTypes := [];
     TypeSelection.client_fetch := fun _ => res;
     TypeSelection.onError := Some (fun _ => Normal tt) |}.

Definition initial_selection : TypeSelection.State :=
  {| TypeSelection.availableTypes := []; TypeSelection.selectedTypes := [] |}.

(* ===================================================================== *)
(** ** Strings: lemmas *)
(* ===================================================================== *)

Lemma truthy_false_nil (s : jsstring) : truthy s = false -> s = [].
Proof. destruct s; [reflexivity | discriminate]. Qed.

Lemma trimStart_nil (s : jsstring) :
  trimStart s = [] -> forallb isWhiteSpace s = true.
Proof.
  induction s as [|c s IH]; simpl; [reflexivity|].
  destruct (isWhiteSpace c) eqn:E; [exact IH | discriminate].
Qed.

Lemma trimStart_all_ws (s : jsstring) :
  forallb isWhiteSpace s = true -> trimStart s = [].
Proof.
  induction s as [|c s IH]; simpl; [reflexivity|].
  intros H. apply andb_true_iff in H as [Hc Hs]. rewrite Hc. auto.
Qed.

Lemma forallb_rev {A} (p : A -> bool) (l : list A) :
  forallb p (rev l) = forallb p l.
Proof.
  induction l as [|x l IH]; simpl; [reflexivity|].
  rewrite forallb_app, IH. simpl. rewrite andb_true_r. apply andb_comm.
Qed.

(** A string that trims to nothing holds white space only. *)
Lemma trim_nil (s : jsstring) : trim s = [] -> forallb isWhiteSpace s = true.
Proof.
  unfold trim, trimEnd. intros H.
  assert (H1 : trimStart (rev (trimStart s)) = []).
  { destruct (trimStart (rev (trimStart s))) as [|c l]; [reflexivity|].
    simpl in H. apply app_eq_nil in H as [_ H]. discriminate. }
  apply trimStart_nil in H1. rewrite forallb_rev in H1.
  clear H. induction s as [|c s IH]; simpl in *; [reflexivity|].
  destruct (isWhiteSpace c) eqn:E; simpl; [auto|].
  simpl in H1. rewrite E in H1. discriminate.
Qed.

Lemma trim_all_ws (s : jsstring) : forallb isWhiteSpace s = true -> trim s = [].
Proof.
  intros H. unfold trim, trimEnd. rewrite (trimStart_all_ws _ H). reflexivity.
Qed.

Lemma split_without_sep (sep : N) (s : jsstring) :
  existsb (code_eqb sep) s = false -> split sep s = [s].
Proof.
  induction s as [|c s IH]; simpl; [reflexivity|].
  intros H. apply orb_false_iff in H as [Hc Hs].
  unfold code_eqb in *. rewrite N.eqb_sym, Hc, (IH Hs). reflexivity.
Qed.

Lemma split_not_nil (sep : N) (s : jsstring) : split sep s <> [].
Proof.
  destruct s as [|c s]; simpl; [discriminate|].
  destruct (code_eqb c sep); [discriminate|].
  destruct (split sep s); discriminate.
Qed.

Lemma ws_without_comma (s : jsstring) :
  forallb isWhiteSpace s = true -> existsb (code_eqb comma) s = false.
Proof.
  induction s as [|c s IH]; [reflexivity|].
  cbn [forallb existsb]. intros H.
  apply andb_true_iff in H as [Hc Hs]. rewrite (IH Hs), orb_false_r.
  unfold code_eqb, comma. apply N.eqb_neq. intros <-. discriminate.
Qed.

(** A blank field filter names no field: the outer test of the field filter
    in [buildExportQuery] never hides a field name. *)
Lemma fieldNames_blank (f : jsstring) : truthy (trim f) = false -> fieldNames f = [].
Proof.
  intros H. apply truthy_false_nil in H.
  pose proof (trim_nil _ H) as Hws.
  unfold fieldNames. rewrite (split_without_sep _ _ (ws_without_comma _ Hws)).
  simpl. rewrite H. reflexivity.
Qed.

Lemma starts_with_app (pat rest : jsstring) : starts_with pat (pat ++ rest) = true.
Proof.
  induction pat as [|p pat IH]; simpl; [reflexivity|].
  unfold code_eqb. rewrite N.eqb_refl. exact IH.
Qed.

Lemma occurrences_app_ge (pat a s : jsstring) :
  (occurrences pat s <= occurrences pat (a ++ s))%nat.
Proof.
  induction a as [|c a IH]; simpl; [lia|].
  destruct (starts_with pat (c :: a ++ s)); lia.
Qed.

Lemma contains_infix (pat a b : jsstring) : contains pat (a ++ pat ++ b) = true.
Proof.
  unfold contains. apply Nat.ltb_lt.
  apply Nat.lt_le_trans with (occurrences pat (pat ++ b)); [|apply occurrences_app_ge].
  pose proof (starts_with_app pat b) as H.
  destruct (pat ++ b) as [|c s] eqn:E; simpl; rewrite H; lia.
Qed.

(* ===================================================================== *)
(** ** buildReferenceExpansion: its three equations *)
(* ===================================================================== *)

Lemma expansion_base (d : Z) : (d <= 0)%Z -> buildReferenceExpansion d = [].
Proof.
  intros H. rewrite buildReferenceExpansion_equation_1.
  destruct (Z_le_gt_dec d 0); simpl; [reflexivity | lia].
Qed.

Lemma expansion_one : buildReferenceExpansion 1 = expansion.
Proof. reflexivity. Qed.

Lemma expansion_step (d : Z) :
  (1 < d)%Z ->
  buildReferenceExpansion d
  = expansion ++ lit "," ++ buildReferenceExpansion (d - 1).
Proof.
  intros H. rewrite buildReferenceExpansion_equation_1 at 1.
  destruct (Z_le_gt_dec d 0); simpl; [lia|].
  destruct (Z_gt_le_dec d 1); simpl; [reflexivity | lia].
Qed.

(** One fragment holds the marker once, whatever follows it: no occurrence
    straddles the end of the fragment. *)
Lemma occurrences_expansion_app (rest : jsstring) :
  occurrences relation_marker (expansion ++ rest)
  = S (occurrences relation_marker rest).
Proof.
  let e := eval vm_compute in expansion in change expansion with e.
  let m := eval vm_compute in relation_marker in change relation_marker with m.
  cbn [app]. reflexivity.
Qed.

Lemma occurrences_after_comma (s : jsstring) :
  occurrences relation_marker (lit "," ++ s) = occurrences relation_marker s.
Proof. reflexivity. Qed.

Lemma occurrences_expansion_nat (n : nat) :
  occurrences relation_marker (buildReferenceExpansion (Z.of_nat n)) = n.
Proof.
  induction n as [|n IH]; [reflexivity|].
  destruct n as [|n].
  - reflexivity.
  - rewrite expansion_step by lia.
    replace (Z.of_nat (S (S n)) - 1)%Z with (Z.of_nat (S n)) by lia.
    rewrite occurrences_expansion_app, occurrences_after_comma, IH.
    reflexivity.
Qed.

(** The same count with the whole fragment as the marker. *)
Lemma fragments_expansion_app (rest : jsstring) :
  occurrences expansion (expansion ++ rest) = S (occurrences expansion rest).
Proof.
  let e := eval vm_compute in expansion in change expansion with e.
  cbn [app]. reflexivity.
Qed.

Lemma fragments_expansion_nat (n : nat) :
  occurrences expansion (buildReferenceExpansion (Z.of_nat n)) = n.
Proof.
  induction n as [|n IH]; [reflexivity|].
  destruct n as [|n].
  - reflexivity.
  - rewrite expansion_step by lia.
    replace (Z.of_nat (S (S n)) - 1)%Z with (Z.of_nat (S n)) by lia.
    rewrite fragments_expansion_app.
    change (occurrences expansion (lit "," ++ buildReferenceExpansion (Z.of_nat (S n))))
      with (occurrences expansion (buildReferenceExpansion (Z.of_nat (S n)))).
    rewrite IH. reflexivity.
Qed.

(** C8.  For every integer depth [d]: the expansion is the empty string when
    [d <= 0]; when [0 <= d] it holds exactly [d] occurrences of the relation
    marker (and of the whole fragment); and when [1 < d] it is one fragment,
    a comma, and the expansion of depth [d - 1]. *)
Theorem expansion_depth_law (d : Z) :
  ((d <= 0)%Z -> buildReferenceExpansion d = [])
  /\ ((0 <= d)%Z ->
      occurrences relation_marker (buildReferenceExpansion d) = Z.to_nat d
      /\ occurrences expansion (buildReferenceExpansion d) = Z.to_nat d)
  /\ ((1 < d)%Z ->
      buildReferenceExpansion d
      = expansion ++ lit "," ++ buildReferenceExpansion (d - 1)).
Proof.
  split; [apply expansion_base|]. split; [|apply expansion_step].
  intros H. rewrite <- (Z2Nat.id d H) at 1 3.
  split; [apply occurrences_expansion_nat | apply fragments_expansion_nat].
Qed.

Example expansion_depth_3 :
  occurrences relation_marker (buildReferenceExpansion 3) = 3
  /\ buildReferenceExpansion 3
     = expansion ++ lit "," ++ expansion ++ lit "," ++ expansion.
Proof. split; reflexivity. Qed.

(* ===================================================================== *)
(** ** buildExportQuery: the override and the filter path *)
(* ===================================================================== *)

Lemma query_of_override (r : ExportRequest) :
  override_active r = true -> buildExportQuery r = customQuery r.
Proof.
  unfold override_active, buildExportQuery. intros ->. reflexivity.
Qed.

(** The shape of every query the builder composes itself. *)
Lemma query_of_filters (r : ExportRequest) :
  override_active r = false ->
  buildExportQuery r
  = lit "*[" ++ join (lit " && ") (conditions_in_order r) ++ lit "]"
    ++ range_clause r
    ++ (if includeRefs r && (0 <? refDepth r)%Z then projection (refDepth r) else []).
Proof.
  unfold override_active, buildExportQuery, conditions_in_order, range_clause.
  intros ->.
  generalize (Number_toString (maxDocuments r)) as num.
  generalize (typeCondition (selectedTypes r)) as tc.
  generalize (dateCondition (dateFilter r)) as dc.
  intros dc tc num.
  assert (Hf : truthy (trim (fieldFilter r)) = false ->
               (0 <? length (fieldNames (fieldFilter r)))%nat = false).
  { intros H. rewrite (fieldNames_blank _ H). reflexivity. }
  destruct (truthy (trim (fieldFilter r))).
  2: rewrite (Hf eq_refl).
  all: generalize (fieldCondition (fieldNames (fieldFilter r))) as fc; intros fc.
  all: destruct (0 <? length (selectedTypes r))%nat;
       destruct (truthy (trim (dateFilter r)));
       try destruct (0 <? length (fieldNames (fieldFilter r)))%nat;
       destruct (includeRefs r && (0 <? refDepth r)%Z);
       cbn [app length Nat.ltb Nat.leb join];
       repeat rewrite <- app_assoc; reflexivity.
Qed.

(** C4.  With the custom-query flag set and a custom query that is not blank,
    the built query is the custom query, unchanged; two requests that agree
    on the custom query give the same query whatever their other fields. *)
Theorem custom_query_verbatim (r : ExportRequest) :
  useCustomQuery r = true ->
  truthy (trim (customQuery r)) = true ->
  buildExportQuery r = customQuery r
  /\ forall r' : ExportRequest,
       useCustomQuery r' = true -> customQuery r' = customQuery r ->
       buildExportQuery r' = buildExportQuery r.
Proof.
  intros Hflag Hq.
  assert (H : override_active r = true) by (unfold override_active; now rewrite Hflag, Hq).
  split; [apply query_of_override, H|].
  intros r' Hflag' Heq.
  rewrite (query_of_override r H), <- Heq. apply query_of_override.
  unfold override_active. now rewrite Hflag', Heq, Hq.
Qed.

Lemma custom_query_verbatim_witness :
  buildExportQuery (request_of_custom [lit "post"] sample_custom_query)
  = sample_custom_query
  /\ forall r' : ExportRequest,
       useCustomQuery r' = true -> customQuery r' = sample_custom_query ->
       buildExportQuery r'
       = buildExportQuery (request_of_custom [lit "post"] sample_custom_query).
Proof.
  apply (custom_query_verbatim (request_of_custom [lit "post"] sample_custom_query));
    reflexivity.
Defined.

(** C3.  The code at the failing input: with the custom-query box ticked the
    built query is the custom text, which holds no range clause, so the
    maximum of 1000 bounds nothing; the same request with the box unticked
    is bounded to [[0...1000]]. *)
Theorem custom_query_unbounded :
  buildExportQuery (request_of_custom [lit "post"] sample_custom_query)
  = lit "*[_type == 'post']"
  /\ contains (lit "[0...1000]")
              (buildExportQuery (request_of_custom [lit "post"] sample_custom_query))
     = false
  /\ maxDocuments (request_of_custom [lit "post"] sample_custom_query) = 1000%Z
  /\ buildExportQuery (request_of_types [lit "post"])
     = lit "*[_type in [" ++ quoted (lit "post") ++ lit "]][0...1000]".
Proof. repeat split. Qed.

Lemma not_blank_trim (s : jsstring) : truthy (trim s) = negb (blank s).
Proof.
  unfold blank. destruct (forallb isWhiteSpace s) eqn:E.
  - now rewrite (trim_all_ws s E).
  - destruct (trim s) eqn:Et; [|reflexivity].
    rewrite (trim_nil s Et) in E. discriminate.
Qed.

Lemma required_fields_fieldNames (f : jsstring) : required_fields f = fieldNames f.
Proof.
  unfold required_fields, fieldNames. change 44%N with comma.
  induction (split comma f) as [|piece pieces IH]; [reflexivity|].
  cbn [filter map]. rewrite not_blank_trim.
  destruct (negb (blank piece)); cbn [map]; now rewrite IH.
Qed.

Lemma created_since_built (d : jsstring) : created_since d = dateCondition d.
Proof.
  unfold created_since, dateCondition, quoted, dquote.
  cbn [app]. now rewrite <- !app_assoc.
Qed.

(** The conditions the builder pushes are those of the specification. *)
Lemma spec_conditions_built (r : ExportRequest) :
  spec_conditions r = conditions_in_order r.
Proof.
  unfold spec_conditions, conditions_in_order.
  rewrite required_fields_fieldNames, not_blank_trim.
  f_equal; [destruct (selectedTypes r); reflexivity|].
  f_equal; [destruct (blank (dateFilter r)); [reflexivity|];
            cbn [negb]; f_equal; apply created_since_built|].
  destruct (fieldNames (fieldFilter r)); reflexivity.
Qed.

(** C7.  When the custom-query override is not active, the built query is
    [*[], the conditions joined by [ && ], and the range clause (then the
    projection, when reference expansion is on).  The conditions are, in
    this order and each only when its filter is set: the type membership
    [_type in [...]] over the selected types, the creation-date lower bound
    over the date filter, and the field presence, a parenthesised [ || ] of
    one [defined(field)] per comma-separated piece of the field filter that
    is not blank, trimmed.  With no condition the filter is [*[]], which
    selects all records.  The bound is the decimal text of [maxDocuments]
    when that is a safe integer. *)
Theorem conditions_joined_in_order (r : ExportRequest) :
  override_active r = false ->
  exists bound,
    buildExportQuery r
    = lit "*[" ++ join (lit " && ") (spec_conditions r) ++ lit "][0..." ++ bound
      ++ lit "]"
      ++ (if includeRefs r && (0 <? refDepth r)%Z
          then projection (refDepth r) else [])
    /\ (safe_integer (maxDocuments r) = true ->
        bound = Number_toString (maxDocuments r))
    /\ (spec_conditions r = [] ->
        buildExportQuery r
        = lit "*[]" ++ lit "[0..." ++ bound ++ lit "]"
          ++ (if includeRefs r && (0 <? refDepth r)%Z
              then projection (refDepth r) else [])).
Proof.
  intros H. exists (Number_toString (maxDocuments r)).
  rewrite (query_of_filters r H), spec_conditions_built. unfold range_clause.
  split; [now rewrite <- !app_assoc|]. split; [reflexivity|].
  intros ->. now rewrite <- !app_assoc.
Qed.

(** Scenario 2 of the specification, with a field filter, instantiates it. *)
Lemma conditions_joined_in_order_witness :
  buildExportQuery request_with_fields
  = lit "*[_type in [" ++ quoted (lit "post") ++ lit ", " ++ quoted (lit "page")
    ++ lit "] && dateTime(_createdAt) >= dateTime(" ++ quoted (lit "2023-01-01")
    ++ lit ") && (defined(title) || defined(slug))][0...1000]".
Proof.
  destruct (conditions_joined_in_order request_with_fields eq_refl)
    as [bound [Hq [Hb _]]].
  rewrite Hq, (Hb eq_refl). reflexivity.
Defined.

Example scenario_1 :
  buildExportQuery (request_of_types [lit "post"])
  = lit "*[_type in [" ++ dquote ++ lit "post" ++ dquote ++ lit "]][0...1000]".
Proof. reflexivity. Qed.

Example scenario_2 :
  buildExportQuery request_scenario2
  = lit "*[_type in [" ++ dquote ++ lit "post" ++ dquote ++ lit ", "
    ++ dquote ++ lit "page" ++ dquote
    ++ lit "] && dateTime(_createdAt) >= dateTime(" ++ dquote
    ++ lit "2023-01-01" ++ dquote ++ lit ")][0...1000]".
Proof. reflexivity. Qed.

Example no_condition_selects_all :
  buildExportQuery (request_of_custom [] []) = lit "*[][0...1000]".
Proof. reflexivity. Qed.

(* ===================================================================== *)
(** ** convertToCSV: the header set *)
(* ===================================================================== *)

Lemma code_eqb_eq (a b : N) : code_eqb a b = true <-> a = b.
Proof. apply N.eqb_eq. Qed.

Lemma str_eqb_eq (a b : jsstring) : str_eqb a b = true <-> a = b.
Proof.
  revert b. induction a as [|x a IH]; intros [|y b]; simpl; try easy.
  rewrite andb_true_iff, code_eqb_eq, IH. split.
  - intros [-> ->]. reflexivity.
  - intros H. injection H as -> ->. auto.
Qed.

Lemma str_eqb_refl (a : jsstring) : str_eqb a a = true.
Proof. apply str_eqb_eq. reflexivity. Qed.

Lemma str_eqb_sym (a b : jsstring) : str_eqb a b = str_eqb b a.
Proof.
  destruct (str_eqb a b) eqn:E1, (str_eqb b a) eqn:E2; try reflexivity.
  - apply str_eqb_eq in E1. subst. rewrite str_eqb_refl in E2. discriminate.
  - apply str_eqb_eq in E2. subst. rewrite str_eqb_refl in E1. discriminate.
Qed.

Lemma member_In (k : jsstring) (s : list jsstring) :
  existsb (str_eqb k) s = true <-> In k s.
Proof.
  rewrite existsb_exists. split.
  - intros [x [Hx E]]. apply str_eqb_eq in E. now subst.
  - intros H. exists k. split; [exact H | apply str_eqb_refl].
Qed.

Lemma filter_absent_skip (x : jsstring) (acc m : list jsstring) :
  existsb (str_eqb x) acc = true ->
  filter (fun k => negb (existsb (str_eqb k) acc)) m
  = filter (fun k => negb (existsb (str_eqb k) acc))
           (filter (fun y => negb (str_eqb x y)) m).
Proof.
  intros Hx. induction m as [|y m IHm]; simpl; [reflexivity|].
  destruct (str_eqb x y) eqn:Exy; simpl.
  - apply str_eqb_eq in Exy. subst y. rewrite Hx. simpl. exact IHm.
  - rewrite IHm. reflexivity.
Qed.

Lemma filter_absent_snoc (x : jsstring) (acc m : list jsstring) :
  filter (fun k => negb (existsb (str_eqb k) (acc ++ [x]))) m
  = filter (fun k => negb (existsb (str_eqb k) acc))
           (filter (fun y => negb (str_eqb x y)) m).
Proof.
  induction m as [|y m IHm]; simpl; [reflexivity|].
  rewrite existsb_app. simpl. rewrite orb_false_r, (str_eqb_sym y x).
  destruct (str_eqb x y) eqn:Exy; simpl.
  - rewrite orb_true_r. simpl. exact IHm.
  - rewrite orb_false_r, IHm. reflexivity.
Qed.

(** Adding the names of a list to a set, one after the other. *)
Lemma Set_add_all (l acc : list jsstring) :
  fold_left (fun s key => Set_add key s) l acc
  = acc ++ filter (fun k => negb (existsb (str_eqb k) acc)) (first_seen l).
Proof.
  revert acc. induction l as [|x l IH]; intros acc; simpl.
  - now rewrite app_nil_r.
  - rewrite IH. unfold Set_add.
    destruct (existsb (str_eqb x) acc) eqn:Hx; simpl.
    + f_equal. apply filter_absent_skip, Hx.
    + rewrite <- app_assoc. simpl. f_equal. f_equal. apply filter_absent_snoc.
Qed.

Lemma scalar_or_null_guard (v : option json) :
  negb (jstype_eqb (typeof v) t_object) || is_null v = scalar_or_null v.
Proof. destruct v as [[]|]; reflexivity. Qed.

Lemma collectKeys_adds (doc : DocumentData) (acc : list jsstring) :
  collectKeys acc doc
  = fold_left (fun s key => Set_add key s) (includable_keys doc) acc.
Proof.
  unfold collectKeys, includable_keys.
  revert acc. induction (Object_keys doc) as [|k ks IH]; intros acc; simpl;
    [reflexivity|].
  rewrite scalar_or_null_guard.
  destruct (scalar_or_null (get doc k)); simpl; apply IH.
Qed.

Lemma csvHeaders_from (data : list DocumentData) (acc : list jsstring) :
  fold_left collectKeys data acc
  = fold_left (fun s key => Set_add key s) (flat_map includable_keys data) acc.
Proof.
  revert acc. induction data as [|doc data IH]; intros acc; simpl; [reflexivity|].
  rewrite fold_left_app, IH, collectKeys_adds. reflexivity.
Qed.

(** The headers are the includable keys in first-seen order. *)
Lemma csvHeaders_first_seen (data : list DocumentData) :
  csvHeaders data = first_seen (flat_map includable_keys data).
Proof.
  unfold csvHeaders. rewrite csvHeaders_from, Set_add_all. simpl.
  induction (first_seen (flat_map includable_keys data)) as [|y m IH]; simpl;
    [reflexivity | now rewrite IH].
Qed.

Lemma first_seen_In (k : jsstring) (l : list jsstring) :
  In k (first_seen l) <-> In k l.
Proof.
  induction l as [|x l IH]; simpl; [tauto|].
  rewrite filter_In, IH. split.
  - intros [H|[H _]]; auto.
  - intros [H|H]; [auto|].
    destruct (str_eqb x k) eqn:E; [left; now apply str_eqb_eq | right; auto].
Qed.

Lemma first_seen_NoDup (l : list jsstring) : NoDup (first_seen l).
Proof.
  induction l as [|x l IH]; simpl; constructor.
  - rewrite filter_In, str_eqb_refl. intros [_ H]. discriminate.
  - apply NoDup_filter, IH.
Qed.

Lemma mapM_length {A B} (f : A -> completion B) (l : list A) (ys : list B) :
  mapM f l = Normal ys -> length ys = length l.
Proof.
  revert ys. induction l as [|x l IH]; intros ys; simpl.
  - intros H. injection H as <-. reflexivity.
  - destruct (f x) as [y|t]; simpl; [|discriminate].
    destruct (mapM f l) as [zs|t]; simpl; [|discriminate].
    intros H. injection H as <-. simpl. f_equal. apply IH. reflexivity.
Qed.

Lemma mapM_total {A B} (f : A -> completion B) (l : list A) :
  (forall x, In x l -> exists y, f x = Normal y) ->
  exists ys, mapM f l = Normal ys.
Proof.
  induction l as [|x l IH]; intros H; simpl.
  - eexists. reflexivity.
  - destruct (H x (or_introl eq_refl)) as [y ->].
    destruct IH as [ys ->]; [intros z Hz; apply H; now right|].
    eexists. reflexivity.
Qed.

Lemma mapM_Forall2 {A B} (f : A -> completion B) (l : list A) (ys : list B) :
  mapM f l = Normal ys -> Forall2 (fun x y => f x = Normal y) l ys.
Proof.
  revert ys. induction l as [|x l IH]; intros ys; simpl.
  - intros H. injection H as <-. constructor.
  - destruct (f x) as [y|t] eqn:E; simpl; [|discriminate].
    destruct (mapM f l) as [zs|t]; simpl; [|discriminate].
    intros H. injection H as <-. constructor; [exact E | apply IH; reflexivity].
Qed.

Lemma convertToCSV_nonempty (P : Platform) (data : list DocumentData) :
  data <> [] ->
  convertToCSV P data
  = cbind (mapM (csvRow P (csvHeaders data)) data)
          (fun rows => Normal (join nl (join [comma] (csvHeaders data) :: rows))).
Proof.
  intros H. unfold convertToCSV. destruct data; [contradiction | reflexivity].
Qed.

Lemma csvCell_total (P : Platform) (value : option json) :
  (forall v, exists t, JSON_stringify P v = Normal t) ->
  exists c, csvCell P value = Normal c.
Proof.
  intros Htotal. unfold csvCell.
  destruct value as [[|b|x|s|items|fields]|]; simpl;
    try (eexists; reflexivity); try apply Htotal.
  destruct (includes comma s); eexists; reflexivity.
Qed.

Lemma memberCell_total (P : Platform) (value : member) :
  (forall v, exists t, JSON_stringify P v = Normal t) ->
  exists c, memberCell P value = Normal c.
Proof.
  intros Htotal. destruct value as [v|name| |]; cbn [memberCell].
  - now apply csvCell_total.
  - eexists. reflexivity.
  - apply Htotal.
  - now apply csvCell_total.
Qed.

Example convertToCSV_empty (P : Platform) : convertToCSV P [] = Normal [].
Proof. reflexivity. Qed.

(** C2, as the specification states it, fails on its own scenario: an array
    is an object to [typeof], so [tags] is no header. *)
Lemma scenario_3_header_without_tags :
  csvHeaders [doc_a; doc_b] = [lit "_id"; lit "_type"; lit "title"]
  /\ csvHeaders [doc_a; doc_b] <> [lit "_id"; lit "_type"; lit "title"; lit "tags"]
  /\ convertToCSV sample_platform [doc_a; doc_b]
     = Normal (lit "_id,_type,title" ++ nl ++ lit "a,post,Hi" ++ nl ++ lit "b,post,").
Proof. split; [reflexivity|]. split; [discriminate | reflexivity]. Qed.

(** C2, amended.  For every non-empty record list, the header row is the
    first line of the table and lists, without repetition and in first-seen
    order, the top-level field names whose value in at least one record is
    neither an array nor an object (scalars and [null] count; arrays, also
    of primitives, do not). *)
Theorem header_is_first_seen_union (P : Platform) (data : list DocumentData) :
  data <> [] ->
  (forall k, In k (csvHeaders data) <->
             exists doc, In doc data /\ In k (Object_keys doc)
                         /\ scalar_or_null (get doc k) = true)
  /\ NoDup (csvHeaders data)
  /\ csvHeaders data = first_seen (flat_map includable_keys data)
  /\ (forall out, convertToCSV P data = Normal out ->
        exists rows, length rows = length data
                     /\ out = join nl (join [comma] (csvHeaders data) :: rows))
  /\ ((forall v, exists t, JSON_stringify P v = Normal t) ->
      exists out, convertToCSV P data = Normal out).
Proof.
  intros Hne. rewrite (convertToCSV_nonempty P data Hne), csvHeaders_first_seen.
  repeat split.
  - rewrite first_seen_In, in_flat_map. intros [doc [Hd Hk]].
    apply filter_In in Hk. exists doc. tauto.
  - intros [doc [Hd [Hk Hv]]]. rewrite first_seen_In, in_flat_map.
    exists doc. split; [exact Hd|]. apply filter_In. tauto.
  - apply first_seen_NoDup.
  - intros out H.
    destruct (mapM _ data) as [rows|t] eqn:E; simpl in H; [|discriminate].
    injection H as <-. exists rows. split; [|reflexivity].
    apply (mapM_length _ _ _ E).
  - intros Htotal.
    destruct (mapM_total (csvRow P (first_seen (flat_map includable_keys data))) data)
      as [rows ->].
    + intros doc _. unfold csvRow.
      destruct (mapM_total (fun header => memberCell P (read doc header))
                           (first_seen (flat_map includable_keys data)))
        as [cells ->]; [|eexists; reflexivity].
      intros h _. apply memberCell_total, Htotal.
    + eexists. reflexivity.
Qed.

Lemma header_is_first_seen_union_witness :
  (forall k, In k (csvHeaders [doc_a; doc_b]) <->
             exists doc, In doc [doc_a; doc_b] /\ In k (Object_keys doc)
                         /\ scalar_or_null (get doc k) = true)
  /\ NoDup (csvHeaders [doc_a; doc_b])
  /\ csvHeaders [doc_a; doc_b] = first_seen (flat_map includable_keys [doc_a; doc_b])
  /\ (forall out, convertToCSV sample_platform [doc_a; doc_b] = Normal out ->
        exists rows, length rows = length [doc_a; doc_b]
                     /\ out = join nl (join [comma] (csvHeaders [doc_a; doc_b]) :: rows))
  /\ ((forall v, exists t, JSON_stringify sample_platform v = Normal t) ->
      exists out, convertToCSV sample_platform [doc_a; doc_b] = Normal out).
Proof.
  apply (header_is_first_seen_union sample_platform [doc_a; doc_b]).
  discriminate.
Defined.

(* ===================================================================== *)
(** ** convertToCSV: the cells *)
(* ===================================================================== *)



Lemma csvRow_cells (P : Platform) (headers : list jsstring) (doc : DocumentData)
  (row : jsstring) :
  csvRow P headers doc = Normal row ->
  exists cells, row = join [comma] cells
                /\ Forall2 (fun h c => memberCell P (read doc h) = Normal c)
                           headers cells.
Proof.
  unfold csvRow. destruct (mapM _ headers) as [cells|t] eqn:E; simpl; [|discriminate].
  intros H. injection H as <-. exists cells. split; [reflexivity|].
  apply (mapM_Forall2 _ _ _ E).
Qed.

Lemma Normal_inj {A} (a b : A) : Normal a = Normal b -> a = b.
Proof. intros H. now injection H. Qed.






(* ===================================================================== *)

Ltac run_export :=
  cbv beta iota zeta delta
    [handleExport try_catch_finally export_body export_catch export_finally
     downloadFile convert call_onComplete call_onError
     setTimeout setIsExporting setExportProgress setMessage setExportCount
     perform modify_ui lift bind ret].

Ltac step_export :=
  cbn -[buildExportQuery lit Number_toString convertToCSV generatedFilename
        timestamp_of Z.of_nat].

Lemma passes_validation_guard (r : ExportRequest) :
  passes_validation r = true ->
  (length (selectedTypes r) =? 0)%nat && negb (useCustomQuery r) = false.
Proof. unfold passes_validation. now destruct (_ && _). Qed.

(** Runs [handleExport] along every path the environment allows. *)
Ltac explore_run :=
  repeat first
    [ progress step_export
    | match goal with
      | |- context [match client_fetch ?e ?q with _ => _ end] =>
          destruct (client_fetch e q) as [[|? ?]|?] eqn:?
      | |- context [match Date_now_toISOString ?e with _ => _ end] =>
          destruct (Date_now_toISOString e) eqn:?
      | |- context [match exportFormat ?r with _ => _ end] =>
          destruct (exportFormat r) eqn:?
      | |- context [match convertToCSV ?p ?d with _ => _ end] =>
          destruct (convertToCSV p d) eqn:?
      | |- context [match JSON_stringify_indent ?p ?d with _ => _ end] =>
          destruct (JSON_stringify_indent p d) eqn:?
      | |- context [match browser_download ?e ?a ?b ?c with _ => _ end] =>
          destruct (browser_download e a b c) eqn:?
      | |- context [match onComplete ?e with _ => _ end] =>
          destruct (onComplete e) eqn:?
      | |- context [match onError ?e with _ => _ end] =>
          destruct (onError e) eqn:?
      | |- context [match ?f ?x with Normal _ => _ | Throw _ => _ end] =>
          destruct (f x) eqn:?
      end ].

Ltac start_run Hv w :=
  apply passes_validation_guard in Hv;
  destruct w as [[b p m n] es ts];
  unfold handleExport; rewrite Hv; run_export.

Ltac count_calls :=
  unfold fetch_calls, download_calls, completion_calls, error_calls;
  cbn [effects snd]; rewrite ?flat_map_app; cbn [flat_map app];
  rewrite ?app_nil_r.


(** C6.  A run started with no type selected and the custom-query flag off
    returns at once: the state is the old one with the validation message,
    so a component that was idle stays idle; nothing is fetched, converted
    or downloaded, no timer is set, and neither callback is called. *)
Theorem validation_blocks_run (env : Env) (r : ExportRequest) (w : World) :
  selectedTypes r = [] ->
  useCustomQuery r = false ->
  handleExport env r w
  = (Normal tt,
     {| ui := {| isExporting := isExporting (ui w);
                 exportProgress := exportProgress (ui w);
                 message := validation_message;
                 exportCount := exportCount (ui w) |};
        effects := effects w;
        timers := timers w |}).
Proof.
  intros Ht Hq. unfold handleExport. rewrite Ht, Hq.
  destruct w as [[b p m n] es ts]. reflexivity.
Qed.

Lemma validation_blocks_run_witness :
  handleExport (env_returning [doc_a]) (request_of_types []) idle_world
  = (Normal tt,
     {| ui := {| isExporting := false; exportProgress := 0;
                 message := validation_message; exportCount := 0 |};
        effects := []; timers := [] |}).
Proof.
  apply (validation_blocks_run (env_returning [doc_a]) (request_of_types [])
                               idle_world); reflexivity.
Defined.

(** C1, as the specification states it, fails: on an empty fetch result the
    run returns before the completion callback, with the progress at 50. *)
Lemma empty_result_skips_completion :
  client_fetch (env_returning [])
               (buildExportQuery (request_of_types [lit "post"])) = Normal []
  /\ onComplete (env_returning []) <> None
  /\ completion_calls
       (snd (handleExport (env_returning []) (request_of_types [lit "post"])
                          idle_world)) = []
  /\ exportProgress
       (ui (snd (handleExport (env_returning []) (request_of_types [lit "post"])
                              idle_world))) = 50%Z.
Proof. split; [reflexivity|]. split; [discriminate|]. split; reflexivity. Qed.

(** C1, amended.  When the run passes the entry test and the fetch returns
    no record, the run ends normally with the informational message, an
    export count of zero and the progress at 50 until the deferred reset;
    its only effects are the log line and the fetch, so neither the
    completion callback nor the error callback is called. *)
Theorem empty_result_ends_quietly (env : Env) (r : ExportRequest) (w : World) :
  passes_validation r = true ->
  client_fetch env (buildExportQuery r) = Normal [] ->
  handleExport env r w
  = (Normal tt,
     {| ui := {| isExporting := false; exportProgress := 50;
                 message := no_documents_message; exportCount := 0 |};
        effects := effects w
                   ++ [console_log (lit "Executing export query:") (buildExportQuery r);
                       client_fetch_call (buildExportQuery r)];
        timers := timers w ++ [(2000%Z, reset_exportProgress)] |})
  /\ completion_calls (snd (handleExport env r w)) = completion_calls w
  /\ error_calls (snd (handleExport env r w)) = error_calls w.
Proof.
  intros Hv Hf. apply passes_validation_guard in Hv.
  destruct w as [[b p m n] es ts]. cbn [ui effects timers].
  assert (E : handleExport env r (Build_World (Build_UIState b p m n) es ts)
              = (Normal tt,
                 {| ui := {| isExporting := false; exportProgress := 50;
                             message := no_documents_message; exportCount := 0 |};
                    effects := es
                      ++ [console_log (lit "Executing export query:") (buildExportQuery r);
                          client_fetch_call (buildExportQuery r)];
                    timers := ts ++ [(2000%Z, reset_exportProgress)] |})).
  { unfold handleExport. rewrite Hv. run_export.
    cbn -[buildExportQuery lit no_documents_message].
    rewrite Hf. cbn -[buildExportQuery lit no_documents_message].
    rewrite <- app_assoc. reflexivity. }
  rewrite E. split; [reflexivity|].
  unfold completion_calls, error_calls. cbn [snd effects].
  rewrite !flat_map_app. cbn [flat_map app]. rewrite !app_nil_r. split; reflexivity.
Qed.

Lemma empty_result_ends_quietly_witness :
  handleExport (env_returning []) (request_of_types [lit "post"]) idle_world
  = (Normal tt,
     {| ui := {| isExporting := false; exportProgress := 50;
                 message := no_documents_message; exportCount := 0 |};
        effects := effects idle_world
                   ++ [console_log (lit "Executing export query:")
                         (buildExportQuery (request_of_types [lit "post"]));
                       client_fetch_call
                         (buildExportQuery (request_of_types [lit "post"]))];
        timers := timers idle_world ++ [(2000%Z, reset_exportProgress)] |})
  /\ completion_calls
       (snd (handleExport (env_returning []) (request_of_types [lit "post"])
                          idle_world)) = completion_calls idle_world
  /\ error_calls
       (snd (handleExport (env_returning []) (request_of_types [lit "post"])
                          idle_world)) = error_calls idle_world.
Proof.
  apply (empty_result_ends_quietly (env_returning []) (request_of_types [lit "post"])
                                   idle_world); reflexivity.
Defined.

Lemma resolved_name_generated (r : ExportRequest) (iso : jsstring) :
  resolved_name r iso
  = generatedFilename r (timestamp_of iso) ++ lit "." ++ format_name (exportFormat r).
Proof. reflexivity. Qed.

(** The effects and the final state of a run in which every step returns. *)
Lemma successful_run (env : Env) (r : ExportRequest) (w : World)
  (docs : list DocumentData) (iso content : jsstring) :
  passes_validation r = true ->
  client_fetch env (buildExportQuery r) = Normal docs ->
  docs <> [] ->
  Date_now_toISOString env = Normal iso ->
  content_of env r docs = Normal content ->
  browser_download env content (resolved_name r iso) (mime_of (exportFormat r))
  = Normal tt ->
  onComplete_returns env ->
  effects (snd (handleExport env r w))
  = effects w
    ++ [console_log (lit "Executing export query:") (buildExportQuery r);
        client_fetch_call (buildExportQuery r);
        download_call content (resolved_name r iso) (mime_of (exportFormat r))]
    ++ match onComplete env with
       | Some _ => [onComplete_call {| exported := length docs;
                                       format := exportFormat r;
                                       result_filename := resolved_name r iso |}]
       | None => []
       end.
Proof.
  intros Hv Hf Hd Hi Hc Hb Hk. apply passes_validation_guard in Hv.
  destruct w as [[b p m n] es ts]. cbn [ui effects timers].
  unfold content_of in Hc. rewrite resolved_name_generated in *.
  unfold handleExport. rewrite Hv. run_export. step_export. rewrite Hf. step_export.
  destruct docs as [|d docs]; [contradiction|].
  step_export. rewrite Hi.
  destruct (exportFormat r); rewrite Hc; step_export;
    cbn [format_name mime_of] in Hb |- *;
    change (lit "." ++ lit "json") with (lit ".json") in Hb |- *;
    change (lit "." ++ lit "csv") with (lit ".csv") in Hb |- *;
    rewrite Hb;
    destruct (onComplete env) as [f|] eqn:Ek; step_export;
    try rewrite (Hk f _ Ek); step_export;
    rewrite <- ?app_assoc; reflexivity.
Qed.

(** C5, as the specification states it, fails: with a custom query in use
    and a type still selected, the generated name carries the type, not the
    placeholder. *)
Lemma custom_query_run_named_by_type :
  override_active (request_of_custom [lit "post"] sample_custom_query) = true
  /\ completion_calls
       (snd (handleExport (env_returning [doc_a; doc_b])
                          (request_of_custom [lit "post"] sample_custom_query)
                          idle_world))
     = [{| exported := 2; format := json_format;
           result_filename := lit "sanity-export-post-2024-05-06.json" |}].
Proof. split; reflexivity. Qed.

(** C5, amended.  In a run in which every step returns, the file is
    downloaded and reported to the completion callback under the resolved
    name: the name of the form with surrounding white space trimmed, when
    that is not blank, plus a dot and the format ([json] or [csv]); else
    [sanity-export-<types joined by dashes>-<date>.<format>], where the type
    segment is the placeholder [custom] exactly when no type is selected,
    which a run that passed the entry test reaches only with the
    custom-query flag set. *)
Theorem output_name_resolution (env : Env) (r : ExportRequest) (w : World)
  (docs : list DocumentData) (iso content : jsstring) :
  passes_validation r = true ->
  client_fetch env (buildExportQuery r) = Normal docs ->
  docs <> [] ->
  Date_now_toISOString env = Normal iso ->
  content_of env r docs = Normal content ->
  browser_download env content (resolved_name r iso) (mime_of (exportFormat r))
  = Normal tt ->
  onComplete_returns env ->
  effects (snd (handleExport env r w))
  = effects w
    ++ [console_log (lit "Executing export query:") (buildExportQuery r);
        client_fetch_call (buildExportQuery r);
        download_call content (resolved_name r iso) (mime_of (exportFormat r))]
    ++ match onComplete env with
       | Some _ => [onComplete_call {| exported := length docs;
                                       format := exportFormat r;
                                       result_filename := resolved_name r iso |}]
       | None => []
       end
  /\ (truthy (trim (filename r)) = true ->
      resolved_name r iso
      = trim (filename r) ++ lit "." ++ format_name (exportFormat r))
  /\ (truthy (trim (filename r)) = false -> selectedTypes r <> [] ->
      resolved_name r iso
      = lit "sanity-export-" ++ join (lit "-") (selectedTypes r) ++ lit "-"
        ++ timestamp_of iso ++ lit "." ++ format_name (exportFormat r))
  /\ (truthy (trim (filename r)) = false -> selectedTypes r = [] ->
      useCustomQuery r = true
      /\ resolved_name r iso
         = lit "sanity-export-" ++ lit "custom" ++ lit "-"
           ++ timestamp_of iso ++ lit "." ++ format_name (exportFormat r))
  /\ format_name json_format = lit "json"
  /\ format_name csv_format = lit "csv".
Proof.
  intros Hv Hf Hd Hi Hc Hb Hk.
  split; [now apply successful_run|].
  unfold resolved_name. repeat split.
  - intros ->. reflexivity.
  - intros -> Ht. destruct (selectedTypes r); [contradiction|].
    cbn [length Nat.ltb Nat.leb]. now rewrite <- !app_assoc.
  - unfold passes_validation in Hv. rewrite H0 in Hv. simpl in Hv.
    now destruct (useCustomQuery r).
  - rewrite H, H0. cbn [length Nat.ltb Nat.leb]. now rewrite <- !app_assoc.
Qed.

Lemma output_name_resolution_witness :
  effects (snd (handleExport (env_returning [doc_a; doc_b])
                             (request_of_types [lit "post"; lit "page"])
                             idle_world))
  = [console_log (lit "Executing export query:")
       (buildExportQuery (request_of_types [lit "post"; lit "page"]));
     client_fetch_call (buildExportQuery (request_of_types [lit "post"; lit "page"]));
     download_call (lit "[]") (lit "sanity-export-post-page-2024-05-06.json")
                   (lit "application/json");
     onComplete_call {| exported := 2; format := json_format;
                        result_filename :=
                          lit "sanity-export-post-page-2024-05-06.json" |}].
Proof.
  apply (output_name_resolution
           (env_returning [doc_a; doc_b])
           (request_of_types [lit "post"; lit "page"])
           idle_world [doc_a; doc_b] sample_iso (lit "[]")).
  - reflexivity.
  - reflexivity.
  - discriminate.
  - reflexivity.
  - reflexivity.
  - reflexivity.
  - intros f res H. injection H as <-. reflexivity.
Defined.

Lemma after_timers_reset (w : World) (delay : Z) :
  exportProgress
    (ui (after_timers {| ui := ui w; effects := effects w;
                         timers := timers w ++ [(delay, reset_exportProgress)] |}))
  = 0%Z.
Proof.
  unfold after_timers. cbn [ui timers]. rewrite fold_left_app.
  cbn [fold_left snd fire]. now destruct (fold_left _ _ _).
Qed.

Lemma errorMessage_text (t : thrown) : errorMessage t = failure_text t.
Proof. now destruct t. Qed.

Ltac close_caught_run :=
  destruct (onError _) as [f|]; step_export;
  [ match goal with |- context [f ?x] => destruct (f x) as [[]|t'] end |];
  step_export; count_calls;
  repeat (split; [reflexivity|]);
  rewrite fold_left_app; cbn [fold_left snd fire];
  now destruct (fold_left _ _ _).

(** C9.  In a run that passed the entry test, a failure of the fetch, of the
    name resolution, of the conversion or of the emission is caught and does
    not reach the caller: the call ends as the error callback ends (normally
    when there is none), the status message is [Export error: ] followed by
    the text of the failure (the message of an [Error], [Export failed]
    otherwise), the error callback is called once with that text, the
    completion callback is not called, the run is no longer exporting, and
    the timer that resets the progress is set. *)
Theorem step_failures_are_caught (env : Env) (r : ExportRequest) (w : World)
  (t : thrown) :
  passes_validation r = true ->
  step_failure env r t ->
  fst (handleExport env r w)
  = match onError env with
    | Some f => f (failure_text t)
    | None => Normal tt
    end
  /\ message (ui (snd (handleExport env r w)))
     = lit "Export error: " ++ failure_text t
  /\ isExporting (ui (snd (handleExport env r w))) = false
  /\ error_calls (snd (handleExport env r w))
     = error_calls w ++ match onError env with
                        | Some _ => [failure_text t]
                        | None => []
                        end
  /\ completion_calls (snd (handleExport env r w)) = completion_calls w
  /\ timers (snd (handleExport env r w))
     = timers w ++ [(2000%Z, reset_exportProgress)]
  /\ exportProgress (ui (after_timers (snd (handleExport env r w)))) = 0%Z.
Proof.
  intros Hv Hs. rewrite <- !errorMessage_text. unfold after_timers.
  destruct Hs as [Hf | docs Hf Hd Hi | docs iso Hf Hd Hi Hc
                  | docs iso content Hf Hd Hi Hc Hb].
  - start_run Hv w. step_export. rewrite Hf. step_export. close_caught_run.
  - start_run Hv w. step_export. rewrite Hf. step_export.
    destruct docs as [|d docs]; [contradiction|].
    step_export. rewrite Hi. step_export. close_caught_run.
  - unfold content_of in Hc.
    start_run Hv w. step_export. rewrite Hf. step_export.
    destruct docs as [|d docs]; [contradiction|].
    step_export. rewrite Hi.
    destruct (exportFormat r); rewrite Hc; step_export; close_caught_run.
  - unfold content_of in Hc. rewrite resolved_name_generated in Hb.
    start_run Hv w. step_export. rewrite Hf. step_export.
    destruct docs as [|d docs]; [contradiction|].
    step_export. rewrite Hi.
    destruct (exportFormat r); rewrite Hc; step_export;
      cbn [format_name mime_of] in Hb;
      change (lit "." ++ lit "json") with (lit ".json") in Hb;
      change (lit "." ++ lit "csv") with (lit ".csv") in Hb;
      rewrite Hb; step_export; close_caught_run.
Qed.

Lemma step_failures_are_caught_witness :
  fst (handleExport env_fetch_failing (request_of_types [lit "post"]) idle_world)
  = Normal tt
  /\ message (ui (snd (handleExport env_fetch_failing
                                    (request_of_types [lit "post"]) idle_world)))
     = lit "Export error: Request failed"
  /\ isExporting (ui (snd (handleExport env_fetch_failing
                                        (request_of_types [lit "post"]) idle_world)))
     = false
  /\ error_calls (snd (handleExport env_fetch_failing
                                    (request_of_types [lit "post"]) idle_world))
     = [lit "Request failed"]
  /\ completion_calls (snd (handleExport env_fetch_failing
                                         (request_of_types [lit "post"]) idle_world))
     = []
  /\ timers (snd (handleExport env_fetch_failing
                               (request_of_types [lit "post"]) idle_world))
     = [(2000%Z, reset_exportProgress)]
  /\ exportProgress
       (ui (after_timers (snd (handleExport env_fetch_failing
                                            (request_of_types [lit "post"])
                                            idle_world)))) = 0%Z.
Proof.
  exact (step_failures_are_caught
           env_fetch_failing (request_of_types [lit "post"]) idle_world
           (ErrorObject (lit "Request failed")) eq_refl
           (fetch_fails env_fetch_failing (request_of_types [lit "post"])
                        (ErrorObject (lit "Request failed")) eq_refl)).
Defined.

(** What is thrown need not be an [Error]: the text is then [Export failed]. *)
Example non_error_failure_text :
  message (ui (snd (handleExport
                      {| platform := sample_platform;
                         client_fetch := fun _ => Throw OtherValue;
                         Date_now_toISOString := Normal sample_iso;
                         browser_download := fun _ _ _ => Normal tt;
                         onComplete := None; onError := None |}
                      (request_of_types [lit "post"]) idle_world)))
  = lit "Export error: Export failed".
Proof. reflexivity. Qed.

(** X14.  Whatever the environment does, [handleExport] itself throws
    nothing, as long as the error callback returns. *)
Lemma handleExport_returns (env : Env) (r : ExportRequest) (w : World) :
  onError_returns env -> fst (handleExport env r w) = Normal tt.
Proof.
  intros Hk.
  assert (Hcatch : forall t w1,
            fst (let '(r2, w2) := export_catch env t w1 in
                 match export_finally w2 with
                 | (Normal _, w3) => (r2, w3)
                 | (Throw t', w3) => (Throw t', w3)
                 end) = Normal tt).
  { intros t [[b p m n] es ts]. run_export. step_export.
    destruct (onError env) as [f|] eqn:Ek; step_export;
      try rewrite (Hk f _ Ek); reflexivity. }
  unfold handleExport.
  destruct w as [[b p m n] es ts].
  destruct (_ && _); [reflexivity|].
  unfold bind at 1 2 3. step_export. unfold try_catch_finally.
  match goal with
  | |- context [export_body env r ?w0] =>
      destruct (export_body env r w0) as [[[]|t] w1] eqn:Eb
  end.
  - destruct w1 as [[b1 p1 m1 n1] es1 ts1]. reflexivity.
  - apply Hcatch.
Qed.

(* ===================================================================== *)
(** ** Further properties of the query builder *)
(* ===================================================================== *)

Lemma trimStart_idem (s : jsstring) : trimStart (trimStart s) = trimStart s.
Proof.
  induction s as [|c s IH]; [reflexivity|]. cbn [trimStart].
  destruct (isWhiteSpace c) eqn:E; [exact IH|].
  cbn [trimStart]. rewrite E. reflexivity.
Qed.

Lemma trimStart_before_char (a b : jsstring) (c : N) :
  isWhiteSpace c = false -> trimStart (a ++ c :: b) = trimStart a ++ c :: b.
Proof.
  intros Hc. induction a as [|x a IH]; cbn [app trimStart].
  - now rewrite Hc.
  - destruct (isWhiteSpace x); [exact IH | reflexivity].
Qed.

Lemma trimStart_head (s : jsstring) :
  trimStart s = [] \/ exists c t, trimStart s = c :: t /\ isWhiteSpace c = false.
Proof.
  induction s as [|c s IH]; [now left|]. cbn [trimStart].
  destruct (isWhiteSpace c) eqn:E; [exact IH|]. right. now exists c, s.
Qed.

Lemma trimEnd_cons (c : N) (t : jsstring) :
  isWhiteSpace c = false -> trimEnd (c :: t) = c :: trimEnd t.
Proof.
  intros Hc. unfold trimEnd. cbn [rev].
  rewrite (trimStart_before_char (rev t) [] c Hc), rev_app_distr. reflexivity.
Qed.

Lemma trimEnd_idem (s : jsstring) : trimEnd (trimEnd s) = trimEnd s.
Proof. unfold trimEnd. now rewrite rev_involutive, trimStart_idem. Qed.

(** A string that starts with a visible character keeps it under [trim]. *)
Lemma trim_cons (c : N) (t : jsstring) :
  isWhiteSpace c = false -> trim (c :: t) = c :: trimEnd t.
Proof.
  intros Hc. unfold trim. cbn [trimStart]. rewrite Hc. now apply trimEnd_cons.
Qed.

Lemma trim_idem (s : jsstring) : trim (trim s) = trim s.
Proof.
  destruct (trimStart_head s) as [E | [c [t [E Hc]]]].
  - assert (H : trim s = []) by (unfold trim; now rewrite E).
    rewrite H. reflexivity.
  - assert (H : trim s = c :: trimEnd t)
      by (unfold trim; rewrite E; now apply trimEnd_cons).
    rewrite H, (trim_cons c _ Hc), trimEnd_idem. reflexivity.
Qed.

Lemma trimStart_In (x : N) (s : jsstring) : In x (trimStart s) -> In x s.
Proof.
  induction s as [|c s IH]; [easy|]. cbn [trimStart].
  destruct (isWhiteSpace c); [intros H; right; auto | auto].
Qed.

Lemma trim_In (x : N) (s : jsstring) : In x (trim s) -> In x s.
Proof.
  unfold trim, trimEnd. intros H. apply trimStart_In.
  apply in_rev in H. apply trimStart_In in H. now apply in_rev.
Qed.

Lemma includes_In (c : N) (s : jsstring) : includes c s = true <-> In c s.
Proof.
  unfold includes. rewrite existsb_exists. split.
  - intros [x [Hx E]]. apply code_eqb_eq in E. now subst.
  - intros H. exists c. split; [exact H | now apply code_eqb_eq].
Qed.

Lemma includes_false (c : N) (s : jsstring) : includes c s = false <-> ~ In c s.
Proof.
  rewrite <- includes_In. destruct (includes c s); split; intros; congruence.
Qed.

Lemma split_parts_without_sep (sep : N) (s : jsstring) :
  Forall (fun part => ~ In sep part) (split sep s).
Proof.
  induction s as [|c s IH]; cbn [split].
  - constructor; [easy | constructor].
  - destruct (code_eqb c sep) eqn:E.
    + constructor; [easy | exact IH].
    + destruct (split sep s) as [|h t]; [constructor; [|constructor]|].
      * intros [H|[]]. subst. unfold code_eqb in E. now rewrite N.eqb_refl in E.
      * inversion IH as [|? ? Hh Ht]; subst. constructor; [|exact Ht].
        intros [H|H]; [|auto]. subst. unfold code_eqb in E.
        now rewrite N.eqb_refl in E.
Qed.

(** X1.  Every field name that reaches the query is non-empty, has no white
    space at either end, and holds no comma. *)
Theorem fieldNames_clean (f : jsstring) :
  Forall (fun name => name <> [] /\ trim name = name /\ includes comma name = false)
         (fieldNames f).
Proof.
  unfold fieldNames. apply Forall_forall. intros name H.
  apply filter_In in H as [H Ht]. apply in_map_iff in H as [part [<- Hp]].
  split; [now destruct (trim part)|]. split; [apply trim_idem|].
  apply includes_false. intros Hin. apply trim_In in Hin.
  pose proof (split_parts_without_sep comma f) as Hall.
  rewrite Forall_forall in Hall. exact (Hall part Hp Hin).
Qed.

Lemma split_join (sep : N) (parts : list jsstring) :
  parts <> [] ->
  Forall (fun part => ~ In sep part) parts ->
  split sep (join [sep] parts) = parts.
Proof.
  intros Hne Hall. induction parts as [|x rest IH]; [contradiction|].
  inversion Hall as [|? ? Hx Hrest]; subst.
  destruct rest as [|y rest'].
  - cbn [join]. apply split_without_sep.
    destruct (existsb (code_eqb sep) x) eqn:E; [|reflexivity].
    exfalso. apply Hx. now apply includes_In.
  - change (join [sep] (x :: y :: rest'))
      with (x ++ sep :: join [sep] (y :: rest')).
    specialize (IH ltac:(discriminate) Hrest).
    clear Hall Hrest Hne. revert Hx. induction x as [|c x IHx]; intros Hx.
    + cbn [app split]. unfold code_eqb. rewrite N.eqb_refl. now rewrite IH.
    + cbn [app split]. destruct (code_eqb c sep) eqn:E.
      * exfalso. apply Hx. left. now apply code_eqb_eq in E.
      * rewrite IHx by (intros H; apply Hx; now right). reflexivity.
Qed.

(** X2.  A field filter written as comma-separated names parses back to
    those names, trimmed, with the blank ones dropped. *)
Theorem fieldNames_of_joined (names : list jsstring) :
  names <> [] ->
  Forall (fun name => includes comma name = false) names ->
  fieldNames (join [comma] names) = filter truthy (map trim names).
Proof.
  intros Hne Hall. unfold fieldNames. rewrite split_join; [reflexivity | exact Hne |].
  eapply Forall_impl; [|exact Hall]. intros name H. now apply includes_false.
Qed.

Lemma fieldNames_of_joined_witness :
  fieldNames (join [comma] [lit " title"; lit " "; lit "slug.current "])
  = filter truthy (map trim [lit " title"; lit " "; lit "slug.current "]).
Proof.
  apply (fieldNames_of_joined [lit " title"; lit " "; lit "slug.current "]).
  - discriminate.
  - repeat constructor.
Defined.

(** X3.  The query handed to the fetch is never blank. *)
Theorem query_never_blank (r : ExportRequest) :
  truthy (trim (buildExportQuery r)) = true.
Proof.
  destruct (override_active r) eqn:E.
  - rewrite (query_of_override r E). unfold override_active in E.
    now apply andb_true_iff in E as [_ E].
  - rewrite (query_of_filters r E).
    change (lit "*[" ++ ?x) with (42%N :: 91%N :: x).
    now rewrite trim_cons.
Qed.

(** X4.  The expansion of any depth is the fragment repeated [depth] times
    and joined by commas: the fragments lie side by side, not inside one
    another. *)
Theorem expansion_closed_form (d : Z) :
  buildReferenceExpansion d = join (lit ",") (repeat expansion (Z.to_nat d)).
Proof.
  destruct (Z_le_gt_dec d 0) as [H|H].
  - rewrite expansion_base by exact H.
    replace (Z.to_nat d) with 0%nat by lia. reflexivity.
  - rewrite <- (Z2Nat.id d) at 1 by lia.
    assert (Hn : (0 < Z.to_nat d)%nat) by lia. clear H.
    induction (Z.to_nat d) as [|n IH]; [lia|].
    destruct n as [|n]; [reflexivity|].
    rewrite expansion_step by lia.
    replace (Z.of_nat (S (S n)) - 1)%Z with (Z.of_nat (S n)) by lia.
    rewrite IH by lia. reflexivity.
Qed.

(* ===================================================================== *)
(** ** Further properties of the CSV converter *)
(* ===================================================================== *)

Lemma filter_none {A} (p : A -> bool) (l : list A) :
  (forall x, In x l -> p x = false) -> filter p l = [].
Proof.
  induction l as [|x l IH]; intros H; [reflexivity|]. cbn [filter].
  rewrite (H x (or_introl eq_refl)). apply IH. intros y Hy. apply H. now right.
Qed.

(** X5.  Appending records never moves or removes a column: the headers of
    the longer list are the old headers followed by the new names, and
    records that bring no new name change nothing. *)
Theorem csvHeaders_app (data more : list DocumentData) :
  csvHeaders (data ++ more)
  = csvHeaders data
    ++ filter (fun k => negb (existsb (str_eqb k) (csvHeaders data)))
              (csvHeaders more)
  /\ csvHeaders (data ++ data) = csvHeaders data.
Proof.
  assert (H : forall more',
             csvHeaders (data ++ more')
             = csvHeaders data
               ++ filter (fun k => negb (existsb (str_eqb k) (csvHeaders data)))
                         (csvHeaders more')).
  { intros more'. unfold csvHeaders at 1. rewrite fold_left_app.
    fold (csvHeaders data). rewrite csvHeaders_from, Set_add_all.
    now rewrite <- csvHeaders_first_seen. }
  split; [apply H|]. rewrite H, filter_none; [apply app_nil_r|].
  intros k Hk. apply member_In in Hk. now rewrite Hk.
Qed.

Lemma get_absent (doc : DocumentData) (key : jsstring) :
  ~ In key (Object_keys doc) -> get doc key = None.
Proof.
  induction doc as [|[k v] doc IH]; [reflexivity|]. cbn [Object_keys map fst get In].
  intros H. destruct (str_eqb k key) eqn:E.
  - apply str_eqb_eq in E. tauto.
  - apply IH. intros Hin. apply H. now right.
Qed.

(** X6.  What a record gives under a header it has no field for: nothing,
    unless the header is the name of something every object inherits; then
    the cell is the text of that method (or [{}]-like serialization of the
    prototype under [__proto__]).  A field holding [null] gives nothing. *)
Theorem missing_field_cell (P : Platform) (doc : DocumentData) (header : jsstring) :
  (~ In header (Object_keys doc) ->
   ~ In header Object_prototype_methods ->
   header <> lit "__proto__" ->
   memberCell P (read doc header) = Normal [])
  /\ (~ In header (Object_keys doc) ->
      In header Object_prototype_methods ->
      memberCell P (read doc header) = Normal (Function_prototype_toString P header))
  /\ (~ In header (Object_keys doc) ->
      header = lit "__proto__" ->
      memberCell P (read doc header) = JSON_stringify P (JObject []))
  /\ (get doc header = Some JNull ->
      memberCell P (read doc header) = Normal []).
Proof.
  unfold read. repeat split.
  - intros Ha Hm Hp. rewrite (get_absent doc header Ha).
    destruct (existsb (str_eqb header) Object_prototype_methods) eqn:E.
    + apply member_In in E. contradiction.
    + destruct (str_eqb header (lit "__proto__")) eqn:E2; [|reflexivity].
      apply str_eqb_eq in E2. contradiction.
  - intros Ha Hm. rewrite (get_absent doc header Ha).
    apply member_In in Hm. now rewrite Hm.
  - intros Ha ->. now rewrite (get_absent doc _ Ha).
  - intros ->. reflexivity.
Qed.

Example missing_field_cells :
  memberCell sample_platform (read doc_a (lit "tags")) = Normal []
  /\ memberCell sample_platform (read doc_a (lit "constructor"))
     = Normal (lit "function () { [native code] }")
  /\ memberCell sample_platform (read doc_a (lit "__proto__")) = Normal (lit "{}").
Proof. repeat split. Qed.

Lemma join_empty_rows (n : nat) :
  join nl ([] :: repeat [] n) = repeat 10%N n.
Proof.
  induction n as [|n IH]; [reflexivity|].
  change (repeat ([] : jsstring) (S n)) with ([] :: repeat ([] : jsstring) n).
  change (join nl ([] :: [] :: repeat [] n))
    with ([] ++ nl ++ join nl ([] :: repeat [] n)).
  rewrite IH. reflexivity.
Qed.

Lemma mapM_constant {A B} (f : A -> completion B) (y : B) (l : list A) :
  (forall x, In x l -> f x = Normal y) -> mapM f l = Normal (repeat y (length l)).
Proof.
  induction l as [|x l IH]; intros H; [reflexivity|]. cbn [mapM length repeat].
  rewrite (H x (or_introl eq_refl)), IH; [reflexivity|].
  intros z Hz. apply H. now right.
Qed.

(** X7.  When every field of every record holds an array or an object, no
    column is left: the table of [n] records is [n] line feeds and nothing
    else, whatever the records hold. *)
Theorem csv_of_nested_only (P : Platform) (data : list DocumentData) :
  data <> [] ->
  (forall doc key, In doc data -> In key (Object_keys doc) ->
                   scalar_or_null (get doc key) = false) ->
  convertToCSV P data = Normal (repeat 10%N (length data)).
Proof.
  intros Hne Hall.
  assert (Hh : csvHeaders data = []).
  { rewrite csvHeaders_first_seen.
    replace (flat_map includable_keys data) with (@nil jsstring); [reflexivity|].
    symmetry. induction data as [|doc data IH]; [reflexivity|].
    cbn [flat_map]. unfold includable_keys at 1.
    rewrite filter_none.
    - destruct data as [|d2 data']; [reflexivity|].
      apply IH; [discriminate|]. intros d k Hd. apply Hall. now right.
    - intros k Hk. apply Hall; [now left | exact Hk]. }
  rewrite (convertToCSV_nonempty P data Hne), Hh.
  rewrite (mapM_constant (csvRow P []) [] data) by reflexivity.
  cbn [cbind]. change (join [comma] []) with (@nil N).
  now rewrite join_empty_rows.
Qed.

Lemma csv_of_nested_only_witness :
  convertToCSV sample_platform [doc_nested; doc_nested] = Normal [10%N; 10%N].
Proof.
  apply (csv_of_nested_only sample_platform [doc_nested; doc_nested]).
  - discriminate.
  - intros doc key [<-|[<-|[]]] [<-|[<-|[]]]; reflexivity.
Defined.

Lemma double_quotes_inj (a b : jsstring) :
  double_quotes a = double_quotes b -> a = b.
Proof.
  revert b. induction a as [|x a IH]; intros [|y b]; cbn [double_quotes flat_map].
  - reflexivity.
  - destruct (code_eqb y 34); discriminate.
  - destruct (code_eqb x 34); discriminate.
  - destruct (code_eqb x 34) eqn:Ex, (code_eqb y 34) eqn:Ey; cbn [app]; intros H.
    + apply code_eqb_eq in Ex, Ey. subst. injection H as H. f_equal. now apply IH.
    + injection H as H1 H2. subst y. unfold code_eqb in Ey. discriminate.
    + injection H as H1 H2. subst x. unfold code_eqb in Ex. discriminate.
    + injection H as H1 H2. subst. f_equal. now apply IH.
Qed.

Lemma quote_wrap_inj (a b : jsstring) : quote_wrap a = quote_wrap b -> a = b.
Proof.
  unfold quote_wrap. intros H. apply app_inv_head in H.
  apply app_inv_tail in H. now apply double_quotes_inj.
Qed.

Lemma quote_wrap_keeps_comma (s : jsstring) :
  includes comma s = true -> includes comma (quote_wrap s) = true.
Proof.
  rewrite !includes_In. intros H. unfold quote_wrap.
  apply in_or_app. right. apply in_or_app. left.
  unfold double_quotes. apply in_flat_map. exists comma. split; [exact H|].
  now left.
Qed.

(** X8.  The escaping loses nothing: two string values with the same cell are
    the same string. *)
Theorem string_cells_injective (P : Platform) (s1 s2 : jsstring) :
  csvCell P (Some (JString s1)) = csvCell P (Some (JString s2)) -> s1 = s2.
Proof.
  unfold csvCell. cbn -[includes quote_wrap comma].
  destruct (includes comma s1) eqn:E1, (includes comma s2) eqn:E2; intros H;
    apply Normal_inj in H.
  - now apply quote_wrap_inj.
  - subst s2. rewrite (quote_wrap_keeps_comma s1 E1) in E2. discriminate.
  - subst s1. rewrite (quote_wrap_keeps_comma s2 E2) in E1. discriminate.
  - exact H.
Qed.

Lemma string_cells_injective_witness : lit "a,b" = lit "a,b".
Proof.
  apply (string_cells_injective sample_platform (lit "a,b") (lit "a,b")).
  reflexivity.
Defined.

(** X9.  When no cell of a record holds a comma, its row splits at the
    commas into exactly one field per header, each field being the cell of
    the record under that header. *)
Theorem row_splits_into_cells (P : Platform) (headers : list jsstring)
  (doc : DocumentData) (row : jsstring) :
  headers <> [] ->
  csvRow P headers doc = Normal row ->
  (forall h c, In h headers -> memberCell P (read doc h) = Normal c -> ~ In comma c) ->
  Forall2 (fun h field => memberCell P (read doc h) = Normal field)
          headers (split comma row).
Proof.
  intros Hne Hrow Hfree.
  apply csvRow_cells in Hrow as [cells [-> Hc]].
  rewrite split_join; [exact Hc | |].
  - intros ->. inversion Hc as [E|]. symmetry in E. contradiction.
  - clear Hne. induction Hc as [|h c hs cs Hhc _ IH]; constructor.
    + apply (Hfree h c); [now left | exact Hhc].
    + apply IH. intros h' c' Hin. apply Hfree. now right.
Qed.

Lemma row_splits_into_cells_witness :
  Forall2 (fun h field => memberCell sample_platform (read doc_a h) = Normal field)
          [lit "_id"; lit "_type"; lit "title"] (split comma (lit "a,post,Hi")).
Proof.
  apply (row_splits_into_cells sample_platform [lit "_id"; lit "_type"; lit "title"]
                               doc_a (lit "a,post,Hi")).
  - discriminate.
  - reflexivity.
  - intros h c [<-|[<-|[<-|[]]]] H; apply Normal_inj in H; subst c;
      cbn; intuition discriminate.
Defined.

(* ===================================================================== *)
(** ** Further properties of the export run *)
(* ===================================================================== *)

(** X10.  Whatever the environment does, a run that passed the entry test
    ends with [isExporting] false, has set exactly one timer (the reset of
    the progress after 2000 ms), and leaves a message, so that the status
    card is shown. *)
Theorem run_always_settles (env : Env) (r : ExportRequest) (w : World) :
  passes_validation r = true ->
  isExporting (ui (snd (handleExport env r w))) = false
  /\ timers (snd (handleExport env r w))
     = timers w ++ [(2000%Z, reset_exportProgress)]
  /\ statusCardVisible (ui (snd (handleExport env r w))) = true.
Proof.
  intros Hv. start_run Hv w. explore_run; repeat split.
Qed.

Lemma run_always_settles_witness :
  isExporting (ui (snd (handleExport env_fetch_failing
                                     (request_of_types [lit "post"]) idle_world)))
  = false
  /\ timers (snd (handleExport env_fetch_failing
                               (request_of_types [lit "post"]) idle_world))
     = timers idle_world ++ [(2000%Z, reset_exportProgress)]
  /\ statusCardVisible
       (ui (snd (handleExport env_fetch_failing
                              (request_of_types [lit "post"]) idle_world))) = true.
Proof.
  apply (run_always_settles env_fetch_failing (request_of_types [lit "post"])
                            idle_world).
  reflexivity.
Defined.

(** X11.  A run that passed the entry test asks the client exactly once, for
    the built query, on every path. *)
Theorem fetch_exactly_once (env : Env) (r : ExportRequest) (w : World) :
  passes_validation r = true ->
  fetch_calls (snd (handleExport env r w)) = fetch_calls w ++ [buildExportQuery r].
Proof.
  intros Hv. start_run Hv w. explore_run; count_calls; reflexivity.
Qed.

Lemma fetch_exactly_once_witness :
  fetch_calls (snd (handleExport (env_returning [doc_a])
                                 (request_of_types [lit "post"]) idle_world))
  = fetch_calls idle_world ++ [buildExportQuery (request_of_types [lit "post"])].
Proof.
  apply (fetch_exactly_once (env_returning [doc_a]) (request_of_types [lit "post"])
                            idle_world).
  reflexivity.
Defined.

(** X12.  A run downloads at most one file, and none at all when the fetch
    threw or returned no record. *)
Theorem download_needs_documents (env : Env) (r : ExportRequest) (w : World) :
  passes_validation r = true ->
  (exists files, download_calls (snd (handleExport env r w))
                 = download_calls w ++ files
                 /\ (length files <= 1)%nat)
  /\ ((forall d ds, client_fetch env (buildExportQuery r) <> Normal (d :: ds)) ->
      download_calls (snd (handleExport env r w)) = download_calls w).
Proof.
  intros Hv. start_run Hv w. split.
  - explore_run; count_calls;
      (eexists; split; [try reflexivity; symmetry; apply app_nil_r | cbn; lia]).
  - intros Hnone.
    destruct (client_fetch env (buildExportQuery r)) as [[|d ds]|t] eqn:Ef;
      [| exfalso; now apply (Hnone d ds) |];
      explore_run; count_calls; reflexivity.
Qed.

Lemma download_needs_documents_witness :
  (exists files,
      download_calls (snd (handleExport (env_returning [doc_a])
                                        (request_of_types [lit "post"]) idle_world))
      = download_calls idle_world ++ files
      /\ (length files <= 1)%nat)
  /\ ((forall d ds,
          client_fetch (env_returning [doc_a])
                       (buildExportQuery (request_of_types [lit "post"]))
          <> Normal (d :: ds)) ->
      download_calls (snd (handleExport (env_returning [doc_a])
                                        (request_of_types [lit "post"]) idle_world))
      = download_calls idle_world).
Proof.
  apply (download_needs_documents (env_returning [doc_a])
                                  (request_of_types [lit "post"]) idle_world).
  reflexivity.
Defined.

(** X13.  When the completion callback returns, a run never calls both
    callbacks: it calls the completion callback at most once and then not
    the error callback, or the error callback at most once and then not the
    completion callback. *)
Theorem callbacks_exclusive (env : Env) (r : ExportRequest) (w : World) :
  passes_validation r = true ->
  onComplete_returns env ->
  (error_calls (snd (handleExport env r w)) = error_calls w
   /\ exists done, completion_calls (snd (handleExport env r w))
                   = completion_calls w ++ done
                   /\ (length done <= 1)%nat)
  \/ (completion_calls (snd (handleExport env r w)) = completion_calls w
      /\ exists failed, error_calls (snd (handleExport env r w))
                        = error_calls w ++ failed
                        /\ (length failed <= 1)%nat).
Proof.
  intros Hv Hk. start_run Hv w.
  explore_run; count_calls;
    try match goal with
        | Hc : onComplete env = Some ?f, Hf : ?f ?x = Throw _ |- _ =>
            rewrite (Hk f x Hc) in Hf; discriminate
        end;
    first
      [ left; split; [reflexivity|]; eexists; split;
        [try reflexivity; symmetry; apply app_nil_r | cbn; lia]
      | right; split; [reflexivity|]; eexists; split;
        [try reflexivity; symmetry; apply app_nil_r | cbn; lia] ].
Qed.

Lemma callbacks_exclusive_witness :
  (error_calls (snd (handleExport (env_returning [doc_a])
                                  (request_of_types [lit "post"]) idle_world))
   = error_calls idle_world
   /\ exists done,
        completion_calls (snd (handleExport (env_returning [doc_a])
                                            (request_of_types [lit "post"])
                                            idle_world))
        = completion_calls idle_world ++ done
        /\ (length done <= 1)%nat)
  \/ (completion_calls (snd (handleExport (env_returning [doc_a])
                                          (request_of_types [lit "post"])
                                          idle_world))
      = completion_calls idle_world
      /\ exists failed,
           error_calls (snd (handleExport (env_returning [doc_a])
                                          (request_of_types [lit "post"])
                                          idle_world))
           = error_calls idle_world ++ failed
           /\ (length failed <= 1)%nat).
Proof.
  apply (callbacks_exclusive (env_returning [doc_a]) (request_of_types [lit "post"])
                             idle_world).
  - reflexivity.
  - intros f res H. injection H as <-. reflexivity.
Defined.

(** The witness of [handleExport_returns]: a run whose fetch throws. *)
Lemma handleExport_returns_witness :
  fst (handleExport env_fetch_failing (request_of_types [lit "post"]) idle_world)
  = Normal tt.
Proof.
  apply (handleExport_returns env_fetch_failing (request_of_types [lit "post"])
                              idle_world).
  intros f msg H. injection H as <-. reflexivity.
Defined.

(** X15.  A completion callback that throws is treated as a failed export,
    after the file has been downloaded: the download stays done, the message
    is the error message of what the callback threw, and the error callback
    is called with it. *)
Theorem throwing_completion_is_reported (env : Env) (r : ExportRequest) (w : World)
  (docs : list DocumentData) (iso content : jsstring)
  (f : ExportResult -> completion unit) (t : thrown) :
  passes_validation r = true ->
  client_fetch env (buildExportQuery r) = Normal docs ->
  docs <> [] ->
  Date_now_toISOString env = Normal iso ->
  content_of env r docs = Normal content ->
  browser_download env content (resolved_name r iso) (mime_of (exportFormat r))
  = Normal tt ->
  onComplete env = Some f ->
  f {| exported := length docs; format := exportFormat r;
       result_filename := resolved_name r iso |} = Throw t ->
  download_calls (snd (handleExport env r w))
  = download_calls w
    ++ [(content, resolved_name r iso, mime_of (exportFormat r))]
  /\ message (ui (snd (handleExport env r w)))
     = lit "Export error: " ++ errorMessage t
  /\ error_calls (snd (handleExport env r w))
     = error_calls w ++ match onError env with
                        | Some _ => [errorMessage t]
                        | None => []
                        end.
Proof.
  intros Hv Hf Hd Hi Hc Hb Hk Ht.
  unfold content_of in Hc. rewrite resolved_name_generated in *.
  start_run Hv w. step_export. rewrite Hf. step_export.
  destruct docs as [|d docs]; [contradiction|].
  step_export. rewrite Hi.
  destruct (exportFormat r); rewrite Hc; step_export;
    cbn [format_name mime_of] in Hb, Ht |- *;
    change (lit "." ++ lit "json") with (lit ".json") in Hb, Ht |- *;
    change (lit "." ++ lit "csv") with (lit ".csv") in Hb, Ht |- *;
    rewrite Hb, Hk; step_export; cbn [length] in Ht; rewrite Ht; step_export;
    destruct (onError env) as [g|]; step_export;
    try destruct (g _); step_export; count_calls; repeat split.
Qed.

Lemma throwing_completion_is_reported_witness :
  download_calls (snd (handleExport env_completion_throwing
                                    (request_of_types [lit "post"]) idle_world))
  = download_calls idle_world
    ++ [(lit "[]", lit "sanity-export-post-2024-05-06.json", lit "application/json")]
  /\ message (ui (snd (handleExport env_completion_throwing
                                    (request_of_types [lit "post"]) idle_world)))
     = lit "Export error: " ++ lit "callback failed"
  /\ error_calls (snd (handleExport env_completion_throwing
                                    (request_of_types [lit "post"]) idle_world))
     = error_calls idle_world ++ [lit "callback failed"].
Proof.
  apply (throwing_completion_is_reported
           env_completion_throwing (request_of_types [lit "post"]) idle_world
           [doc_a] sample_iso (lit "[]")
           (fun _ => Throw (ErrorObject (lit "callback failed")))
           (ErrorObject (lit "callback failed")));
    try reflexivity.
  discriminate.
Defined.

(** X16.  The state a run that went through leaves: not exporting, progress
    at 100 (until the timer resets it), the count of the fetched records,
    and the message naming that count and the final file name. *)
Theorem state_after_success (env : Env) (r : ExportRequest) (w : World)
  (docs : list DocumentData) (iso content : jsstring) :
  passes_validation r = true ->
  client_fetch env (buildExportQuery r) = Normal docs ->
  docs <> [] ->
  Date_now_toISOString env = Normal iso ->
  content_of env r docs = Normal content ->
  browser_download env content (resolved_name r iso) (mime_of (exportFormat r))
  = Normal tt ->
  onComplete_returns env ->
  fst (handleExport env r w) = Normal tt
  /\ ui (snd (handleExport env r w))
     = {| isExporting := false; exportProgress := 100;
          message := success_message (length docs) (resolved_name r iso);
          exportCount := length docs |}.
Proof.
  intros Hv Hf Hd Hi Hc Hb Hk.
  unfold content_of in Hc. rewrite resolved_name_generated in *.
  unfold success_message.
  start_run Hv w. step_export. rewrite Hf. step_export.
  destruct docs as [|d docs]; [contradiction|].
  step_export. rewrite Hi.
  destruct (exportFormat r); rewrite Hc; step_export;
    cbn [format_name mime_of] in Hb |- *;
    change (lit "." ++ lit "json") with (lit ".json") in Hb |- *;
    change (lit "." ++ lit "csv") with (lit ".csv") in Hb |- *;
    rewrite Hb;
    destruct (onComplete env) as [f|] eqn:Ek; step_export;
    try rewrite (Hk f _ Ek); step_export; split; reflexivity.
Qed.

Lemma state_after_success_witness :
  fst (handleExport (env_returning [doc_a; doc_b])
                    (request_of_types [lit "post"]) idle_world) = Normal tt
  /\ ui (snd (handleExport (env_returning [doc_a; doc_b])
                           (request_of_types [lit "post"]) idle_world))
     = {| isExporting := false; exportProgress := 100;
          message := success_message 2 (lit "sanity-export-post-2024-05-06.json");
          exportCount := 2 |}.
Proof.
  apply (state_after_success (env_returning [doc_a; doc_b])
                             (request_of_types [lit "post"]) idle_world
                             [doc_a; doc_b] sample_iso (lit "[]"));
    try reflexivity.
  - discriminate.
  - intros f res H. injection H as <-. reflexivity.
Defined.

(** X17.  A fetch that throws leaves the document count of the previous run
    in place, so the badge of the status card still shows it beside the
    error message, which is [Export error: ] and the text of the failure;
    when no timer of an earlier run is pending, the progress stays at 25
    until the timer of this run resets it. *)
Theorem failed_fetch_keeps_count (env : Env) (r : ExportRequest) (w : World)
  (t : thrown) :
  passes_validation r = true ->
  client_fetch env (buildExportQuery r) = Throw t ->
  exportCount (ui (snd (handleExport env r w))) = exportCount (ui w)
  /\ badgeVisible (ui (snd (handleExport env r w))) = badgeVisible (ui w)
  /\ message (ui (snd (handleExport env r w)))
     = lit "Export error: " ++ failure_text t
  /\ (timers w = [] ->
      exportProgress (ui (snd (handleExport env r w))) = 25%Z).
Proof.
  intros Hv Hf. rewrite <- errorMessage_text.
  start_run Hv w. step_export. rewrite Hf.
  explore_run; repeat split.
Qed.

Lemma failed_fetch_keeps_count_witness :
  exportCount (ui (snd (handleExport env_fetch_failing
                                     (request_of_types [lit "post"]) idle_world)))
  = 0%nat
  /\ badgeVisible (ui (snd (handleExport env_fetch_failing
                                         (request_of_types [lit "post"]) idle_world)))
     = false
  /\ message (ui (snd (handleExport env_fetch_failing
                                    (request_of_types [lit "post"]) idle_world)))
     = lit "Export error: Request failed"
  /\ (timers idle_world = [] ->
      exportProgress (ui (snd (handleExport env_fetch_failing
                                           (request_of_types [lit "post"])
                                           idle_world))) = 25%Z).
Proof.
  exact (failed_fetch_keeps_count env_fetch_failing (request_of_types [lit "post"])
                                  idle_world (ErrorObject (lit "Request failed"))
                                  eq_refl eq_refl).
Defined.

(* ===================================================================== *)
(** ** The status card *)
(* ===================================================================== *)

Lemma contains_suffix (pat a b : jsstring) :
  contains pat b = true -> contains pat (a ++ b) = true.
Proof.
  unfold contains. rewrite !Nat.ltb_lt. pose proof (occurrences_app_ge pat a b). lia.
Qed.

Lemma error_message_critical (msg : jsstring) :
  statusTone (lit "Export error: " ++ msg) = critical.
Proof.
  unfold statusTone.
  change (lit "Export error: " ++ msg)
    with (lit "Export " ++ lit "error" ++ lit ": " ++ msg).
  now rewrite contains_infix.
Qed.

(** X18.  After a run that passed the entry test the message is one of
    three: the no-documents message, shown in the positive tone; a success
    message; or an error message, always shown in the critical tone. *)
Theorem status_after_run (env : Env) (r : ExportRequest) (w : World) :
  passes_validation r = true ->
  (message (ui (snd (handleExport env r w))) = no_documents_message
   /\ statusTone (message (ui (snd (handleExport env r w)))) = positive)
  \/ (exists n name,
        message (ui (snd (handleExport env r w))) = success_message n name)
  \/ (exists t,
        message (ui (snd (handleExport env r w)))
        = lit "Export error: " ++ errorMessage t
        /\ statusTone (message (ui (snd (handleExport env r w)))) = critical).
Proof.
  intros Hv. start_run Hv w. unfold success_message.
  explore_run;
    first
      [ left; split; reflexivity
      | right; right; eexists; split; [reflexivity | apply error_message_critical]
      | right; left; do 2 eexists; reflexivity ].
Qed.

Lemma status_after_run_witness :
  (message (ui (snd (handleExport (env_returning []) (request_of_types [lit "post"])
                                  idle_world))) = no_documents_message
   /\ statusTone (message (ui (snd (handleExport (env_returning [])
                                                 (request_of_types [lit "post"])
                                                 idle_world)))) = positive)
  \/ (exists n name,
        message (ui (snd (handleExport (env_returning [])
                                       (request_of_types [lit "post"]) idle_world)))
        = success_message n name)
  \/ (exists t,
        message (ui (snd (handleExport (env_returning [])
                                       (request_of_types [lit "post"]) idle_world)))
        = lit "Export error: " ++ errorMessage t
        /\ statusTone (message (ui (snd (handleExport (env_returning [])
                                                      (request_of_types [lit "post"])
                                                      idle_world)))) = critical).
Proof.
  apply (status_after_run (env_returning []) (request_of_types [lit "post"])
                          idle_world).
  reflexivity.
Defined.

(** X19.  The tone follows the text alone: a success message is shown in the
    critical tone whenever the final file name holds the word [error], and
    the message of a blocked run (no type, no custom query) is shown in the
    positive tone. *)
Theorem tone_follows_text (n : nat) (name : jsstring) :
  (contains (lit "error") name = true ->
   statusTone (success_message n name) = critical)
  /\ statusTone validation_message = positive.
Proof.
  split; [|reflexivity]. intros H. unfold statusTone, success_message.
  rewrite !app_assoc. now rewrite contains_suffix.
Qed.

(* ===================================================================== *)
(** ** The type selection *)
(* ===================================================================== *)

Lemma str_neqb_In (type t : jsstring) (prev : list jsstring) :
  In t (filter (fun x => negb (str_eqb x type)) prev) <-> t <> type /\ In t prev.
Proof.
  rewrite filter_In. split.
  - intros [H E]. split; [|exact H]. intros ->. now rewrite str_eqb_refl in E.
  - intros [Hn H]. split; [exact H|].
    destruct (str_eqb t type) eqn:E; [|reflexivity].
    apply str_eqb_eq in E. contradiction.
Qed.

Lemma filter_other_id (type : jsstring) (prev : list jsstring) :
  ~ In type prev -> filter (fun x => negb (str_eqb x type)) prev = prev.
Proof.
  induction prev as [|x prev IH]; intros H; [reflexivity|]. cbn [filter].
  destruct (str_eqb x type) eqn:E.
  - apply str_eqb_eq in E. subst. exfalso. apply H. now left.
  - cbn [negb]. f_equal. apply IH. intros Hin. apply H. now right.
Qed.

(** X20.  Toggling a type flips its membership in the selection and leaves
    every other type as it was, in the same order. *)
Theorem toggle_flips_membership (type : jsstring) (prev : list jsstring) :
  (In type (toggleTypeSelection type prev) <-> ~ In type prev)
  /\ (forall t, t <> type ->
        (In t (toggleTypeSelection type prev) <-> In t prev))
  /\ filter (fun x => negb (str_eqb x type)) (toggleTypeSelection type prev)
     = filter (fun x => negb (str_eqb x type)) prev.
Proof.
  unfold toggleTypeSelection.
  destruct (existsb (str_eqb type) prev) eqn:E.
  - apply member_In in E. split; [|split].
    + split; [|contradiction].
      intros H. apply str_neqb_In in H as [H _]. contradiction.
    + intros t Ht. rewrite str_neqb_In. tauto.
    + apply filter_other_id. intros H. now apply str_neqb_In in H as [H _].
  - assert (Hn : ~ In type prev).
    { intros H. apply member_In in H. congruence. }
    split; [|split].
    + split; [auto|]. intros _. apply in_or_app. right. now left.
    + intros t Ht. rewrite in_app_iff. cbn [In]. split; [|tauto].
      intros [H|[H|[]]]; [exact H|]. subst. contradiction.
    + rewrite filter_app. cbn [filter]. rewrite str_eqb_refl. apply app_nil_r.
Qed.

(** X21.  Toggling keeps a selection free of repetitions. *)
Theorem toggle_keeps_NoDup (type : jsstring) (prev : list jsstring) :
  NoDup prev -> NoDup (toggleTypeSelection type prev).
Proof.
  intros H. unfold toggleTypeSelection.
  destruct (existsb (str_eqb type) prev) eqn:E.
  - now apply NoDup_filter.
  - apply NoDup_app; [exact H | repeat constructor; easy |].
    intros x Hx [<-|[]]. apply member_In in Hx. congruence.
Qed.

Lemma toggle_keeps_NoDup_witness :
  NoDup (toggleTypeSelection (lit "page") [lit "post"; lit "page"]).
Proof.
  apply (toggle_keeps_NoDup (lit "page") [lit "post"; lit "page"]).
  repeat constructor; cbn; intuition discriminate.
Defined.

(** X22.  Toggling a type twice restores a selection that did not hold it;
    a selection that held it gets it back at the end, once. *)
Theorem toggle_twice (type : jsstring) (prev : list jsstring) :
  toggleTypeSelection type (toggleTypeSelection type prev)
  = if existsb (str_eqb type) prev
    then filter (fun x => negb (str_eqb x type)) prev ++ [type]
    else prev.
Proof.
  unfold toggleTypeSelection at 2.
  destruct (existsb (str_eqb type) prev) eqn:E; unfold toggleTypeSelection.
  - replace (existsb (str_eqb type) (filter _ prev)) with false; [reflexivity|].
    symmetry. destruct (existsb _ (filter _ prev)) eqn:E2; [|reflexivity].
    apply member_In in E2. apply str_neqb_In in E2 as [E2 _]. contradiction.
  - rewrite existsb_app. cbn [existsb]. rewrite str_eqb_refl, orb_true_r.
    rewrite filter_app. cbn [filter]. rewrite str_eqb_refl. cbn [negb].
    rewrite app_nil_r. apply filter_other_id.
    intros H. apply member_In in H. congruence.
Qed.

Lemma load_from_prop (props : TypeSelection.Props) (st : TypeSelection.State)
  (es : list effect) :
  TypeSelection.documentTypes props <> [] ->
  TypeSelection.loadAvailableTypes props (st, es)
  = (Normal tt,
     ({| TypeSelection.availableTypes :=
           filter truthy (TypeSelection.documentTypes props);
         TypeSelection.selectedTypes :=
           [hd [] (TypeSelection.documentTypes props)] |}, es)).
Proof.
  intros H. unfold TypeSelection.loadAvailableTypes.
  destruct (TypeSelection.documentTypes props) as [|t ts]; [contradiction|].
  reflexivity.
Qed.

Lemma load_from_fetch (props : TypeSelection.Props) (st : TypeSelection.State)
  (es : list effect) (types : list jsstring) :
  TypeSelection.documentTypes props = [] ->
  TypeSelection.client_fetch props TypeSelection.types_query = Normal types ->
  TypeSelection.loadAvailableTypes props (st, es)
  = (Normal tt,
     ({| TypeSelection.availableTypes := filter truthy types;
         TypeSelection.selectedTypes :=
           match types with
           | [] => TypeSelection.selectedTypes st
           | first :: _ => [first]
           end |},
      es ++ [client_fetch_call TypeSelection.types_query])).
Proof.
  intros Hp Hf. unfold TypeSelection.loadAvailableTypes. rewrite Hp.
  cbn [length Nat.ltb Nat.leb]. rewrite Hf. now destruct types.
Qed.

(** X24.  When the client throws, the two lists stay as they were, the error
    is logged, and the error callback (when given) receives the fixed text
    [Failed to load document types], whatever was thrown; the call returns
    what the callback returns. *)
Theorem types_load_failure (props : TypeSelection.Props)
  (st : TypeSelection.State) (es : list effect) (t : thrown) :
  TypeSelection.documentTypes props = [] ->
  TypeSelection.client_fetch props TypeSelection.types_query = Throw t ->
  fst (snd (TypeSelection.loadAvailableTypes props (st, es))) = st
  /\ snd (snd (TypeSelection.loadAvailableTypes props (st, es)))
     = es ++ [client_fetch_call TypeSelection.types_query;
              console_error (lit "Error loading document types:") t]
          ++ match TypeSelection.onError props with
             | Some _ => [onError_call TypeSelection.load_failure_message]
             | None => []
             end
  /\ fst (TypeSelection.loadAvailableTypes props (st, es))
     = match TypeSelection.onError props with
       | Some f => f TypeSelection.load_failure_message
       | None => Normal tt
       end.
Proof.
  intros Hp Hf. unfold TypeSelection.loadAvailableTypes. rewrite Hp.
  cbn [length Nat.ltb Nat.leb]. rewrite Hf.
  destruct (TypeSelection.onError props); cbn [fst snd];
    rewrite <- ?app_assoc; repeat split; now rewrite ?app_nil_r.
Qed.

Lemma types_load_failure_witness :
  fst (snd (TypeSelection.loadAvailableTypes
              (props_fetching (Throw OtherValue)) (initial_selection, [])))
  = initial_selection
  /\ snd (snd (TypeSelection.loadAvailableTypes
                 (props_fetching (Throw OtherValue)) (initial_selection, [])))
     = [] ++ [client_fetch_call TypeSelection.types_query;
              console_error (lit "Error loading document types:") OtherValue]
          ++ [onError_call TypeSelection.load_failure_message]
  /\ fst (TypeSelection.loadAvailableTypes
            (props_fetching (Throw OtherValue)) (initial_selection, []))
     = Normal tt.
Proof.
  apply (types_load_failure (props_fetching (Throw OtherValue)) initial_selection []
                            OtherValue); reflexivity.
Defined.

(** X25.  The available types never hold the empty name, but the selection
    is not checked against them: the first name of the prop is selected even
    when it is empty, so the selected type is an available one exactly when
    it is not the empty name. *)
Theorem selection_not_checked (props : TypeSelection.Props)
  (st : TypeSelection.State) (es : list effect) :
  TypeSelection.documentTypes props <> [] ->
  Forall (fun t => t <> [])
         (TypeSelection.availableTypes
            (fst (snd (TypeSelection.loadAvailableTypes props (st, es)))))
  /\ (incl (TypeSelection.selectedTypes
              (fst (snd (TypeSelection.loadAvailableTypes props (st, es)))))
           (TypeSelection.availableTypes
              (fst (snd (TypeSelection.loadAvailableTypes props (st, es)))))
      <-> hd [] (TypeSelection.documentTypes props) <> []).
Proof.
  intros H. rewrite (load_from_prop props st es H).
  cbn [fst snd TypeSelection.availableTypes TypeSelection.selectedTypes].
  split.
  - apply Forall_forall. intros t Ht. apply filter_In in Ht as [_ Ht].
    now destruct t.
  - destruct (TypeSelection.documentTypes props) as [|first rest]; [contradiction|].
    cbn [hd]. split.
    + intros Hincl. specialize (Hincl first (or_introl eq_refl)).
      apply filter_In in Hincl as [_ Ht]. now destruct first.
    + intros Hne t [<-|[]]. apply filter_In. split; [now left|].
      now destruct first.
Qed.

Lemma selection_not_checked_witness :
  Forall (fun t => t <> [])
         (TypeSelection.availableTypes
            (fst (snd (TypeSelection.loadAvailableTypes
                         (props_of_types [[]; lit "post"])
                         (initial_selection, [])))))
  /\ (incl (TypeSelection.selectedTypes
              (fst (snd (TypeSelection.loadAvailableTypes
                           (props_of_types [[]; lit "post"])
                           (initial_selection, [])))))
           (TypeSelection.availableTypes
              (fst (snd (TypeSelection.loadAvailableTypes
                           (props_of_types [[]; lit "post"])
                           (initial_selection, [])))))
      <-> hd [] (TypeSelection.documentTypes (props_of_types [[]; lit "post"]))
          <> []).
Proof.
  apply (selection_not_checked (props_of_types [[]; lit "post"]) initial_selection []).
  discriminate.
Defined.

(** X26.  Once a load has found at least one type, a request made of the
    resulting selection has its export button enabled and passes the entry
    test of the run, with or without a custom query. *)
Theorem export_enabled_after_load (props : TypeSelection.Props)
  (st : TypeSelection.State) (es : list effect) (types : list jsstring)
  (r : ExportRequest) :
  types <> [] ->
  (TypeSelection.documentTypes props = types
   \/ (TypeSelection.documentTypes props = []
       /\ TypeSelection.client_fetch props TypeSelection.types_query = Normal types)) ->
  selectedTypes r
  = TypeSelection.selectedTypes
      (fst (snd (TypeSelection.loadAvailableTypes props (st, es)))) ->
  exportButtonDisabled r = false /\ passes_validation r = true.
Proof.
  intros Hne Hsrc Hr.
  assert (E : selectedTypes r = [hd [] types]).
  { rewrite Hr. destruct Hsrc as [Hp | [Hp Hf]].
    - rewrite load_from_prop by (rewrite Hp; exact Hne). now rewrite Hp.
    - rewrite (load_from_fetch props st es types Hp Hf).
      destruct types; [contradiction | reflexivity]. }
  unfold passes_validation, exportButtonDisabled. rewrite E. split; reflexivity.
Qed.

Lemma export_enabled_after_load_witness :
  exportButtonDisabled (request_of_types [lit "post"]) = false
  /\ passes_validation (request_of_types [lit "post"]) = true.
Proof.
  apply (export_enabled_after_load (props_of_types [lit "post"; lit "page"])
                                   initial_selection [] [lit "post"; lit "page"]
                                   (request_of_types [lit "post"])).
  - discriminate.
  - left. reflexivity.
  - reflexivity.
Defined.

Lemma load_failed (props : TypeSelection.Props) (st : TypeSelection.State)
  (es : list effect) (t : thrown) :
  TypeSelection.documentTypes props = [] ->
  TypeSelection.client_fetch props TypeSelection.types_query = Throw t ->
  fst (snd (TypeSelection.loadAvailableTypes props (st, es))) = st.
Proof.
  intros Hp Hf. unfold TypeSelection.loadAvailableTypes. rewrite Hp.
  cbn [length Nat.ltb Nat.leb]. rewrite Hf.
  now destruct (TypeSelection.onError props).
Qed.

(** X23.  Loading is idempotent on the state: a second load against the same
    props leaves the two lists as the first load left them, on every path
    (prop, fetch, empty answer, failure). *)
Theorem load_idempotent (props : TypeSelection.Props)
  (st : TypeSelection.State) (es es' : list effect) :
  fst (snd (TypeSelection.loadAvailableTypes
              props
              (fst (snd (TypeSelection.loadAvailableTypes props (st, es))), es')))
  = fst (snd (TypeSelection.loadAvailableTypes props (st, es))).
Proof.
  destruct (TypeSelection.documentTypes props) as [|first rest] eqn:Hp.
  - destruct (TypeSelection.client_fetch props TypeSelection.types_query)
      as [types|t] eqn:Hf.
    + rewrite (load_from_fetch props st es types Hp Hf).
      cbn [fst snd]. rewrite (load_from_fetch props _ es' types Hp Hf).
      cbn [fst snd TypeSelection.selectedTypes]. now destruct types.
    + now rewrite !(load_failed props _ _ t Hp Hf).
  - assert (H : TypeSelection.documentTypes props <> []) by (rewrite Hp; discriminate).
    now rewrite !(load_from_prop props _ _ H).
Qed.

Lemma split_head_prefix (sep : N) (s : jsstring) :
  s = hd [] (split sep s)
  \/ exists rest, s = hd [] (split sep s) ++ sep :: rest.
Proof.
  induction s as [|c s IH]; [now left|]. cbn [split].
  destruct (code_eqb c sep) eqn:E.
  - right. exists s. apply code_eqb_eq in E. now subst.
  - destruct (split sep s) as [|h t] eqn:Es.
    + now apply split_not_nil in Es.
    + cbn [hd app] in *. destruct IH as [IH | [rest IH]].
      * left. now rewrite <- IH.
      * right. exists rest. now rewrite IH at 1.
Qed.

(** X27.  The date segment of a generated name is the ISO text of the clock
    up to its first [T]: it holds no [T], and the ISO text is the segment
    alone or the segment, a [T], and a rest that is dropped. *)
Theorem timestamp_is_date_prefix (iso : jsstring) :
  ~ In 84%N (timestamp_of iso)
  /\ (iso = timestamp_of iso
      \/ exists rest, iso = timestamp_of iso ++ 84%N :: rest).
Proof.
  unfold timestamp_of. pose proof (split_parts_without_sep 84 iso) as Hall.
  pose proof (split_head_prefix 84 iso) as Hpre.
  destruct (split 84 iso) as [|h t] eqn:E; [now apply split_not_nil in E|].
  cbn [hd] in *. split; [now inversion Hall | exact Hpre].
Qed.

Example timestamp_of_instant :
  timestamp_of (lit "2024-05-06T07:08:09.000Z") = lit "2024-05-06".
Proof. reflexivity. Qed.

Lemma split_parts_In (sep : N) (s part : jsstring) (x : N) :
  In part (split sep s) -> In x part -> In x s.
Proof.
  revert part. induction s as [|c s IH]; intros part; cbn [split].
  - intros [<-|[]] [].
  - destruct (code_eqb c sep).
    + intros [<-|H] Hx; [destruct Hx | right; eauto].
    + destruct (split sep s) as [|h t].
      * intros [<-|[]] [<-|[]]. now left.
      * intros [<-|H] Hx.
        -- destruct Hx as [<-|Hx]; [now left | right].
           apply (IH h); [now left | exact Hx].
        -- right. apply (IH part); [now right | exact Hx].
Qed.

(** X28.  A field filter made of commas and white space only names no field
    and adds no condition: the query is the one of the empty filter. *)
Theorem separators_only_filter_ignored (r : ExportRequest) :
  override_active r = false ->
  (forall c, In c (fieldFilter r) -> isWhiteSpace c = true \/ c = comma) ->
  fieldNames (fieldFilter r) = []
  /\ buildExportQuery r
     = buildExportQuery
         {| selectedTypes := selectedTypes r; dateFilter := dateFilter r;
            fieldFilter := []; useCustomQuery := useCustomQuery r;
            customQuery := customQuery r; maxDocuments := maxDocuments r;
            includeRefs := includeRefs r; refDepth := refDepth r;
            exportFormat := exportFormat r; filename := filename r |}.
Proof.
  intros Ho Hall.
  assert (Hn : fieldNames (fieldFilter r) = []).
  { unfold fieldNames. apply filter_none. intros name Hname.
    apply in_map_iff in Hname as [part [<- Hpart]].
    rewrite trim_all_ws; [reflexivity|].
    apply forallb_forall. intros x Hx.
    destruct (Hall x (split_parts_In comma _ part x Hpart Hx)) as [H| ->];
      [exact H|].
    pose proof (split_parts_without_sep comma (fieldFilter r)) as Hs.
    rewrite Forall_forall in Hs. now apply Hs in Hx. }
  split; [exact Hn|].
  rewrite (query_of_filters r Ho), query_of_filters by exact Ho.
  unfold conditions_in_order, range_clause. cbn [selectedTypes dateFilter fieldFilter
    maxDocuments includeRefs refDepth]. rewrite Hn. reflexivity.
Qed.

Lemma separators_only_filter_ignored_witness :
  fieldNames (lit " , ,") = []
  /\ buildExportQuery
       {| selectedTypes := [lit "post"]; dateFilter := []; fieldFilter := lit " , ,";
          useCustomQuery := false; customQuery := []; maxDocuments := 1000;
          includeRefs := false; refDepth := 2; exportFormat := json_format;
          filename := [] |}
     = buildExportQuery (request_of_types [lit "post"]).
Proof.
  apply (separators_only_filter_ignored
           {| selectedTypes := [lit "post"]; dateFilter := [];
              fieldFilter := lit " , ,";
              useCustomQuery := false; customQuery := []; maxDocuments := 1000;
              includeRefs := false; refDepth := 2; exportFormat := json_format;
              filename := [] |}).
  - reflexivity.
  - intros c [<-|[<-|[<-|[<-|[]]]]]; cbn; auto.
Defined.

(** X29.  Where the progress stands when a run ends tells how far it got:
    starting with no timer of an earlier run pending, it is one of 25, 50,
    75, 90 and 100; and it is 0 once the timers have fired. *)
Theorem progress_after_run (env : Env) (r : ExportRequest) (w : World) :
  passes_validation r = true ->
  timers w = [] ->
  In (exportProgress (ui (snd (handleExport env r w)))) [25; 50; 75; 90; 100]%Z
  /\ exportProgress (ui (after_timers (snd (handleExport env r w)))) = 0%Z.
Proof.
  intros Hv _. start_run Hv w. unfold after_timers.
  explore_run; (split; [cbn; tauto|]);
    rewrite fold_left_app; cbn [fold_left snd fire];
    now destruct (fold_left _ _ _).
Qed.

Lemma progress_after_run_witness :
  In (exportProgress (ui (snd (handleExport (env_returning [])
                                            (request_of_types [lit "post"])
                                            idle_world))))
     [25; 50; 75; 90; 100]%Z
  /\ exportProgress (ui (after_timers (snd (handleExport (env_returning [])
                                                         (request_of_types [lit "post"])
                                                         idle_world)))) = 0%Z.
Proof.
  apply (progress_after_run (env_returning []) (request_of_types [lit "post"])
                            idle_world); reflexivity.
Defined.

(** X30.  Once the fetch has returned, the document count is the number of
    fetched records on every later path, also when the conversion, the
    download or a callback then fails. *)
Theorem count_is_fetched (env : Env) (r : ExportRequest) (w : World)
  (docs : list DocumentData) :
  passes_validation r = true ->
  client_fetch env (buildExportQuery r) = Normal docs ->
  exportCount (ui (snd (handleExport env r w))) = length docs.
Proof.
  intros Hv Hf. start_run Hv w. step_export. rewrite Hf.
  destruct docs as [|d docs]; explore_run; reflexivity.
Qed.

Lemma count_is_fetched_witness :
  exportCount (ui (snd (handleExport (env_returning [doc_a; doc_b])
                                     (request_of_types [lit "post"]) idle_world)))
  = length [doc_a; doc_b].
Proof.
  apply (count_is_fetched (env_returning [doc_a; doc_b])
                          (request_of_types [lit "post"]) idle_world
                          [doc_a; doc_b]); reflexivity.
Defined.
